(** * phoenixdb.cursor: the statement / frame lifecycle of [Cursor]

    A shallow embedding of [src/phoenixdb/cursor.py].  The cursor is a record
    of its private attributes; every method is a computation in a small
    state-and-exception monad over a [World] that holds the cursor, the hidden
    state of the Avatica client the cursor talks to, and the chronological log
    of the requests sent to that client. *)

From Stdlib Require Import ZArith String List Bool Lia Sorted.
From stdpp Require Import base list strings relations.

Local Open Scope string_scope.
Local Open Scope Z_scope.
Local Open Scope list_scope.

(** ** Python-level data *)

Section Model.

(** [Obj]: the Python objects other than [None] that occur as column values
    (wire values and the results of [Decimal] / [float]).  [PyExn]: exceptions
    raised outside [cursor.py] (by the client, by [Decimal], by [float]).
    [ClientState]: the hidden state of the client object. *)
Context {Obj PyExn ClientState : Type}.

Definition ConnId := string.
Definition StmtId := Z.

(** A column value; [None] is Python's [None]. *)
Definition Value := option Obj.
Definition Row := list Value.
Definition Params := list Value.

(** [frame['offset']], [frame['rows']], [frame['done']]. *)
Record Frame := mkFrame {
  offset : Z;
  rows : list Row;
  done : bool
}.

(** One entry of [signature['columns']], with the keys the cursor reads. *)
Record Column := mkColumn {
  columnName : string;
  type_name : string;
  displaySize : Z;
  precision : Z;
  scale : Z;
  nullable : Z;
  columnClassName : string
}.

Record Signature := mkSignature { columns : list Column }.

(** [ColumnDescription], the named tuple of line 25. *)
Record ColumnDescription := mkColumnDescription {
  name : string;
  type_code : string;
  display_size : Z;
  internal_size : option Z;
  cd_precision : Z;
  cd_scale : Z;
  null_ok : bool
}.

(** The two callables that [_set_signature] stores in [_data_types]. *)
Inductive data_type := Decimal | float.

(** The attributes of the connection that the cursor reads. *)
Record Connection := mkConnection {
  conn_id : ConnId;
  conn_closed : bool
}.

(** The instance attributes set by [Cursor.__init__].  [_pos] is a counter
    that is only ever [None], [0] or the successor of its previous value. *)
Record Cursor := mkCursor {
  _connection : Connection;
  _id : option StmtId;
  _signature : option Signature;
  _data_types : list (nat * data_type);
  _frame : option Frame;
  _pos : option nat;
  _closed : bool;
  arraysize : Z;
  itersize : Z;
  _updatecount : Z
}.

(** [Cursor.__init__(connection, id=None)] with the class defaults
    [arraysize = 1] and [itersize = 2000]. *)
Definition __init__ (connection : Connection) (id : option StmtId) : Cursor :=
  {| _connection := connection; _id := id; _signature := None;
     _data_types := []; _frame := None; _pos := None; _closed := false;
     arraysize := 1; itersize := 2000; _updatecount := -1 |}.

(** Attribute assignments [self.x = v]. *)
Definition with_id (v : option StmtId) (c : Cursor) : Cursor :=
  {| _connection := _connection c; _id := v; _signature := _signature c;
     _data_types := _data_types c; _frame := _frame c; _pos := _pos c;
     _closed := _closed c; arraysize := arraysize c; itersize := itersize c;
     _updatecount := _updatecount c |}.
Definition with_signature (v : option Signature) (c : Cursor) : Cursor :=
  {| _connection := _connection c; _id := _id c; _signature := v;
     _data_types := _data_types c; _frame := _frame c; _pos := _pos c;
     _closed := _closed c; arraysize := arraysize c; itersize := itersize c;
     _updatecount := _updatecount c |}.
Definition with_data_types (v : list (nat * data_type)) (c : Cursor) : Cursor :=
  {| _connection := _connection c; _id := _id c; _signature := _signature c;
     _data_types := v; _frame := _frame c; _pos := _pos c;
     _closed := _closed c; arraysize := arraysize c; itersize := itersize c;
     _updatecount := _updatecount c |}.
Definition with_frame (v : option Frame) (c : Cursor) : Cursor :=
  {| _connection := _connection c; _id := _id c; _signature := _signature c;
     _data_types := _data_types c; _frame := v; _pos := _pos c;
     _closed := _closed c; arraysize := arraysize c; itersize := itersize c;
     _updatecount := _updatecount c |}.
Definition with_pos (v : option nat) (c : Cursor) : Cursor :=
  {| _connection := _connection c; _id := _id c; _signature := _signature c;
     _data_types := _data_types c; _frame := _frame c; _pos := v;
     _closed := _closed c; arraysize := arraysize c; itersize := itersize c;
     _updatecount := _updatecount c |}.
Definition with_closed (v : bool) (c : Cursor) : Cursor :=
  {| _connection := _connection c; _id := _id c; _signature := _signature c;
     _data_types := _data_types c; _frame := _frame c; _pos := _pos c;
     _closed := v; arraysize := arraysize c; itersize := itersize c;
     _updatecount := _updatecount c |}.
Definition with_updatecount (v : Z) (c : Cursor) : Cursor :=
  {| _connection := _connection c; _id := _id c; _signature := _signature c;
     _data_types := _data_types c; _frame := _frame c; _pos := _pos c;
     _closed := _closed c; arraysize := arraysize c; itersize := itersize c;
     _updatecount := v |}.

(** ** Exceptions *)

(** What a [raise] or a failing expression of [cursor.py] produces. *)
Inductive Exn :=
| Raised (cls msg : string)   (* [raise cls(msg)], [cls] bound in the module *)
| NameError (ident : string)  (* the name after [raise] is not bound *)
| IndexError                  (* [rows[pos]] or [row[i]] out of range *)
| TypeError                   (* subscripting [None] *)
| Foreign (e : PyExn).        (* raised by the client, [Decimal] or [float] *)

(** The names bound at module level in [cursor.py]: the imports of lines
    15-18 and the definitions of lines 20-29.  [InternalError] is not among
    the names imported from [phoenixdb.errors], and it is no Python builtin. *)
Definition module_names : list string :=
  ["logging"; "collections"; "Decimal";
   "OperationalError"; "NotSupportedError"; "ProgrammingError";
   "__all__"; "logger"; "ColumnDescription"; "Cursor"].

(** The builtins the module's [raise] statements name. *)
Definition builtin_names : list string := ["StopIteration"].

(** Evaluation of [raise cls(msg)]: the name is looked up first. *)
Definition raise_exn (cls msg : string) : Exn :=
  if bool_decide (cls ∈ module_names ++ builtin_names)
  then Raised cls msg else NameError cls.

(** The error kinds of the specification, read off the exception raised. *)
Definition is_StateError (e : Exn) : bool :=
  match e with Raised cls _ => bool_decide (cls = "ProgrammingError") | _ => false end.
Definition is_ProtocolViolation (e : Exn) : bool :=
  match e with Raised cls _ => bool_decide (cls = "InternalError") | _ => false end.

(** ** The client *)

(** One element of the list returned by [prepareAndExecute]. *)
Record Result := mkResult {
  ownStatement : bool;
  statementId : StmtId;
  signature : option Signature;
  firstFrame : option Frame;
  updateCount : Z
}.

(** The dictionary returned by [prepare]. *)
Record Statement := mkStatement {
  st_id : StmtId;
  st_signature : option Signature
}.

(** The calls the cursor makes on [self._connection._client], with the
    arguments as the call sites pass them; an argument left out at a call
    site is [None]. *)
Inductive Request :=
| ReqCloseStatement (conn : ConnId) (id : StmtId)
| ReqPrepareAndExecute (conn : ConnId) (id : option StmtId) (operation : string) (maxRowCount : Z)
| ReqPrepare (conn : ConnId) (id : option StmtId) (operation : string) (maxRowCount : Z)
| ReqFetch (conn : ConnId) (id : option StmtId) (parameters : option Params)
           (offset_arg : option Z) (fetchMaxRowCount : Z).

(** What a client call gives back: a value, or an exception of its own. *)
Inductive Reply (A : Type) :=
| Success (a : A)
| Failure (e : PyExn).
Arguments Success {A} a.
Arguments Failure {A} e.

(** Modelled from the spec: the statement-execution collaborator
    ([self._connection._client]; [phoenixdb/avatica.py] is not among the
    sources), with the contract of section 6: [prepareAndExecute] returns a
    list of results (possibly empty), [prepare] a statement, [fetch] a frame,
    and each of these may fail with an error of the collaborator that
    propagates unchanged; [closeStatement] is fire-and-forget, its errors are
    not propagated to the cursor.  The client is a deterministic object with
    hidden state. *)
Class Client := mkClient {
  prepareAndExecute :
    ConnId -> option StmtId -> string -> Z -> ClientState -> Reply (list Result) * ClientState;
  prepare :
    ConnId -> option StmtId -> string -> Z -> ClientState -> Reply Statement * ClientState;
  fetch :
    ConnId -> option StmtId -> option Params -> option Z -> Z -> ClientState -> Reply Frame * ClientState;
  closeStatement :
    ConnId -> StmtId -> ClientState -> ClientState
}.

(** [Decimal(value)] and [float(value)] for a value other than [None]: both
    are library code, and both may raise. *)
Class Builtins := mkBuiltins {
  py_Decimal : Obj -> Reply Obj;
  py_float : Obj -> Reply Obj
}.

(** ** The monad of cursor methods *)

Record World := mkWorld {
  cur : Cursor;
  srv : ClientState;
  sent : list Request
}.

Inductive Outcome (A : Type) :=
| Returns (a : A)
| Raises (e : Exn).
Arguments Returns {A} a.
Arguments Raises {A} e.

Definition M (A : Type) : Type := World -> Outcome A * World.

Definition ret {A} (a : A) : M A := fun w => (Returns a, w).

Definition bind {A B} (m : M A) (k : A -> M B) : M B :=
  fun w => match m w with
           | (Returns a, w') => k a w'
           | (Raises e, w') => (Raises e, w')
           end.

Definition raise {A} (cls msg : string) : M A :=
  fun w => (Raises (raise_exn cls msg), w).

Definition throw {A} (e : Exn) : M A := fun w => (Raises e, w).

Definition self : M Cursor := fun w => (Returns (cur w), w).

Definition assign (f : Cursor -> Cursor) : M unit :=
  fun w => (Returns tt, {| cur := f (cur w); srv := srv w; sent := sent w |}).

Local Notation "x <- m ;; k" := (bind m (fun x => k))
  (at level 100, m at next level, right associativity).
Local Notation "m ;;; k" := (bind m (fun _ => k))
  (at level 100, right associativity).

Context {client : Client} {builtins : Builtins}.

(** A client call: the request is logged, the client answers and moves to
    its next state, and a failure is raised in the cursor unchanged. *)
Definition call {A} (rq : Request)
    (answer : ClientState -> Reply A * ClientState) : M A :=
  fun w =>
    let '(r, s) := answer (srv w) in
    let w' := {| cur := cur w; srv := s; sent := sent w ++ [rq] |} in
    match r with
    | Success a => (Returns a, w')
    | Failure e => (Raises (Foreign e), w')
    end.

Definition call_closeStatement (conn : ConnId) (id : StmtId) : M unit :=
  fun w =>
    (Returns tt,
     {| cur := cur w; srv := closeStatement conn id (srv w);
        sent := sent w ++ [ReqCloseStatement conn id] |}).

Definition call_prepareAndExecute (conn : ConnId) (id : option StmtId)
    (operation : string) (maxRowCount : Z) : M (list Result) :=
  call (ReqPrepareAndExecute conn id operation maxRowCount)
       (prepareAndExecute conn id operation maxRowCount).

Definition call_prepare (conn : ConnId) (id : option StmtId)
    (operation : string) (maxRowCount : Z) : M Statement :=
  call (ReqPrepare conn id operation maxRowCount)
       (prepare conn id operation maxRowCount).

Definition call_fetch (conn : ConnId) (id : option StmtId)
    (parameters : option Params) (offset_arg : option Z)
    (fetchMaxRowCount : Z) : M Frame :=
  call (ReqFetch conn id parameters offset_arg fetchMaxRowCount)
       (fetch conn id parameters offset_arg fetchMaxRowCount).

(** ** The methods of [Cursor] *)

(** [Cursor.close], lines 81-97. *)
Definition close : M unit :=
  c <- self ;;
  if _closed c then raise "ProgrammingError" "the cursor is already closed"
  else
    (match _id c with
     | Some id =>
         call_closeStatement (conn_id (_connection c)) id ;;;
         assign (with_id None)
     | None => ret tt
     end) ;;;
    assign (with_signature None) ;;;
    assign (with_data_types []) ;;;
    assign (with_frame None) ;;;
    assign (with_pos None) ;;;
    assign (with_closed true).

(** [Cursor.__del__], lines 61-63. *)
Definition __del__ : M unit :=
  c <- self ;;
  if negb (conn_closed (_connection c)) && negb (_closed c)
  then close else ret tt.

(** [Cursor.__exit__], lines 68-70. *)
Definition __exit__ : M unit :=
  c <- self ;;
  if negb (_closed c) then close else ret tt.

(** The property [Cursor.closed], lines 99-102. *)
Definition closed (c : Cursor) : bool := _closed c.

(** The property [Cursor.description], lines 104-119. *)
Definition description (c : Cursor) : option (list ColumnDescription) :=
  match _signature c with
  | None => None
  | Some sg =>
      Some (map (fun column =>
                   {| name := columnName column;
                      type_code := type_name column;
                      display_size := displaySize column;
                      internal_size := None;
                      cd_precision := precision column;
                      cd_scale := scale column;
                      null_ok := negb (nullable column =? 0) |})
                (columns sg))
  end.

(** [Cursor._set_id], lines 121-124. *)
Definition _set_id (id : StmtId) : M unit :=
  c <- self ;;
  (match _id c with
   | Some old =>
       if negb (old =? id)
       then call_closeStatement (conn_id (_connection c)) old
       else ret tt
   | None => ret tt
   end) ;;;
  assign (with_id (Some id)).

(** The loop of [_set_signature], lines 132-136: the entries appended to
    [_data_types] for the columns numbered from [i] on. *)
Fixpoint data_types_from (i : nat) (cols : list Column) : list (nat * data_type) :=
  match cols with
  | [] => []
  | column :: rest =>
      let tail := data_types_from (S i) rest in
      if String.eqb (columnClassName column) "java.math.BigDecimal"
      then (i, Decimal) :: tail
      else if String.eqb (columnClassName column) "java.lang.Float"
              || String.eqb (columnClassName column) "java.lang.Double"
      then (i, float) :: tail
      else tail
  end.

(** [Cursor._set_signature], lines 126-136. *)
Definition _set_signature (sg : option Signature) : M unit :=
  assign (with_signature sg) ;;;
  assign (with_data_types []) ;;;
  match sg with
  | None => ret tt
  | Some s => assign (with_data_types (data_types_from 0 (columns s)))
  end.

(** [Cursor._set_frame], lines 138-145. *)
Definition _set_frame (frame : option Frame) : M unit :=
  assign (with_frame frame) ;;;
  assign (with_pos None) ;;;
  match frame with
  | None => ret tt
  | Some fr =>
      match rows fr with
      | _ :: _ => assign (with_pos (Some 0%nat))
      | [] =>
          if negb (done fr)
          then raise "InternalError"
                     "got an empty frame, but the statement is not done yet"
          else ret tt
      end
  end.

(** [Cursor._fetch_next_frame], lines 147-151. *)
Definition _fetch_next_frame : M unit :=
  c <- self ;;
  match _frame c with
  | None => throw TypeError
  | Some fr =>
      let offset := offset fr + Z.of_nat (length (rows fr)) in
      frame <- call_fetch (conn_id (_connection c)) (_id c) None
                          (Some offset) (itersize c) ;;
      _set_frame (Some frame)
  end.

(** [Cursor.execute], lines 153-174. *)
Definition execute (operation : string) (parameters : option Params) : M unit :=
  c <- self ;;
  if _closed c then raise "ProgrammingError" "the cursor is already closed"
  else
    assign (with_updatecount (-1)) ;;;
    match parameters with
    | None =>
        results <- call_prepareAndExecute (conn_id (_connection c)) (_id c)
                                          operation (itersize c) ;;
        match results with
        | [] => ret tt
        | result :: _ =>
            (if ownStatement result then _set_id (statementId result)
             else ret tt) ;;;
            _set_signature (signature result) ;;;
            _set_frame (firstFrame result) ;;;
            assign (with_updatecount (updateCount result))
        end
    | Some ps =>
        statement <- call_prepare (conn_id (_connection c)) (_id c)
                                  operation (itersize c) ;;
        _set_id (st_id statement) ;;;
        _set_signature (st_signature statement) ;;;
        c' <- self ;;
        frame <- call_fetch (conn_id (_connection c')) (_id c') (Some ps)
                            None (itersize c') ;;
        _set_frame (Some frame)
    end.

(** The loop of [executemany], lines 185-187. *)
Fixpoint executemany_loop (seq_of_parameters : list Params) : M unit :=
  match seq_of_parameters with
  | [] => ret tt
  | parameters :: rest =>
      c <- self ;;
      call_fetch (conn_id (_connection c)) (_id c) (Some parameters) None 0 ;;;
      executemany_loop rest
  end.

(** [Cursor.executemany], lines 176-187.  Line 184 assigns [_signature]
    directly. *)
Definition executemany (operation : string) (seq_of_parameters : list Params) : M unit :=
  c <- self ;;
  if _closed c then raise "ProgrammingError" "the cursor is already closed"
  else
    assign (with_updatecount (-1)) ;;;
    _set_frame None ;;;
    c1 <- self ;;
    statement <- call_prepare (conn_id (_connection c1)) (_id c1) operation 0 ;;
    _set_id (st_id statement) ;;;
    assign (with_signature (st_signature statement)) ;;;
    executemany_loop seq_of_parameters.

(** [data_type(value)] for a value that is not [None]. *)
Definition apply_data_type (dt : data_type) (v : Obj) : Reply Obj :=
  match dt with
  | Decimal => py_Decimal v
  | float => py_float v
  end.

(** The loop of [fetchone], lines 201-204, run on the list object [row]: the
    outcome of the loop and the row as the loop leaves it.  The loop writes
    into the row in place, so what was coerced before an exception stays. *)
Fixpoint coerce (dts : list (nat * data_type)) (row : Row) : Outcome unit * Row :=
  match dts with
  | [] => (Returns tt, row)
  | (i, dt) :: rest =>
      match row !! i with
      | None => (Raises IndexError, row)
      | Some None => coerce rest row
      | Some (Some value) =>
          match apply_data_type dt value with
          | Success v => coerce rest (<[i := Some v]> row)
          | Failure e => (Raises (Foreign e), row)
          end
      end
  end.

(** [Cursor.fetchone], lines 189-205.  [row] is the list object at index
    [pos] of the list [rows] of the frame read on entry, and the loop of
    lines 201-204 writes into that object: the write shows through
    [self._frame] unless [_fetch_next_frame] has put another frame there. *)
Definition fetchone : M (option Row) :=
  c <- self ;;
  match _frame c with
  | None => raise "ProgrammingError" "no select statement was executed"
  | Some fr =>
      match _pos c with
      | None => ret None
      | Some p =>
          match rows fr !! p with
          | None => throw IndexError
          | Some row =>
              let last := (length (rows fr) <=? S p)%nat in
              assign (with_pos (Some (S p))) ;;;
              (if last then
                 assign (with_pos None) ;;;
                 if negb (done fr) then _fetch_next_frame else ret tt
               else ret tt) ;;;
              c' <- self ;;
              let '(o, row') := coerce (_data_types c') row in
              (if last && negb (done fr) then ret tt
               else assign (with_frame
                              (Some {| offset := offset fr;
                                       rows := <[p := row']> (rows fr);
                                       done := done fr |}))) ;;;
              match o with
              | Returns _ => ret (Some row')
              | Raises e => throw e
              end
          end
      end
  end.

(** [Cursor.next], lines 75-79. *)
Definition next : M Row :=
  row <- fetchone ;;
  match row with
  | None => raise "StopIteration" ""
  | Some r => ret r
  end.

(** The loop of [fetchmany], lines 211-216; [n] counts the iterations
    [size] still allows. *)
Fixpoint fetchmany_loop (n : nat) (acc : list Row) : M (list Row) :=
  match n with
  | O => ret acc
  | S n' =>
      row <- fetchone ;;
      match row with
      | None => ret acc
      | Some r => fetchmany_loop n' (acc ++ [r])
      end
  end.

(** [Cursor.fetchmany], lines 207-217. *)
Definition fetchmany (size : option Z) : M (list Row) :=
  c <- self ;;
  let size := match size with None => arraysize c | Some n => n end in
  fetchmany_loop (Z.to_nat size) [].

(** The [while True] loop of [fetchall], lines 221-225, run for at most
    [fuel] iterations; [None] when the fuel runs out before the loop ends. *)
Fixpoint fetchall_loop (fuel : nat) (acc : list Row) (w : World)
    : option (Outcome (list Row) * World) :=
  match fuel with
  | O => None
  | S k =>
      match fetchone w with
      | (Raises e, w') => Some (Raises e, w')
      | (Returns None, w') => Some (Returns acc, w')
      | (Returns (Some r), w') => fetchall_loop k (acc ++ [r]) w'
      end
  end.

(** [Cursor.fetchall], lines 219-226. *)
Definition fetchall (fuel : nat) (w : World) : option (Outcome (list Row) * World) :=
  fetchall_loop fuel [] w.

(** The property [Cursor.rowcount], lines 240-246. *)
Definition rowcount (c : Cursor) : Z := _updatecount c.

(** The property [Cursor.rownumber], lines 248-260. *)
Definition rownumber (c : Cursor) : option Z :=
  match _frame c, _pos c with
  | Some fr, Some p => Some (offset fr + Z.of_nat p)
  | _, _ => option_map Z.of_nat (_pos c)
  end.

(** ** Callers *)

(** A caller that calls [fetchmany(n)] again and again, stops after the
    first call that returns fewer than [n] rows, and concatenates what the
    calls returned; at most [fuel] calls. *)
Fixpoint fetchmany_until_short (fuel : nat) (n : Z) (acc : list Row) (w : World)
    : option (Outcome (list Row) * World) :=
  match fuel with
  | O => None
  | S k =>
      match fetchmany (Some n) w with
      | (Raises e, w') => Some (Raises e, w')
      | (Returns batch, w') =>
          if Z.of_nat (length batch) <? n then Some (Returns (acc ++ batch), w')
          else fetchmany_until_short k n (acc ++ batch) w'
      end
  end.

(** One fetch operation of a caller, as a step on worlds. *)
Inductive fetch_step : World -> World -> Prop :=
| step_fetchone w : fetch_step w (snd (fetchone w))
| step_fetchmany size w : fetch_step w (snd (fetchmany size w))
| step_fetchall fuel w r w' : fetchall fuel w = Some (r, w') -> fetch_step w w'.

(** The offsets of the page requests in a log, in the order sent: a page
    request is a [fetch] that passes [offset]. *)
Fixpoint page_offsets (log : list Request) : list Z :=
  match log with
  | [] => []
  | ReqFetch _ _ _ (Some o) _ :: rest => o :: page_offsets rest
  | _ :: rest => page_offsets rest
  end.

(** ** Descriptions of states *)

(** The cursor as [close] leaves it. *)
Definition closed_cursor (c : Cursor) : Cursor :=
  {| _connection := _connection c; _id := None; _signature := None;
     _data_types := []; _frame := None; _pos := None; _closed := true;
     arraysize := arraysize c; itersize := itersize c;
     _updatecount := _updatecount c |}.

(** The requests [close] and [_set_id] send to release the handle [old]. *)
Definition release (conn : ConnId) (old : option StmtId) : list Request :=
  match old with
  | Some id => [ReqCloseStatement conn id]
  | None => []
  end.

(** The state of the client after those requests. *)
Definition released (conn : ConnId) (old : option StmtId) (s : ClientState) : ClientState :=
  match old with
  | Some id => closeStatement conn id s
  | None => s
  end.

(** The handle [_set_id id] releases: the one held, when it is another. *)
Definition stale (old : option StmtId) (id : StmtId) : option StmtId :=
  match old with
  | Some o => if negb (o =? id) then Some o else None
  | None => None
  end.

(** The coercion table [_set_signature sg] leaves in [_data_types]. *)
Definition data_types_of (sg : option Signature) : list (nat * data_type) :=
  match sg with
  | None => []
  | Some s => data_types_from 0 (columns s)
  end.

(** The position [_set_frame (Some fr)] leaves in [_pos]. *)
Definition first_pos (fr : Frame) : option nat :=
  match rows fr with [] => None | _ :: _ => Some 0%nat end.

(** The outcome of [_set_frame (Some fr)]. *)
Definition frame_outcome (fr : Frame) : Outcome unit :=
  match rows fr with
  | [] => if done fr then Returns tt else Raises (raise_exn "InternalError"
            "got an empty frame, but the statement is not done yet")
  | _ :: _ => Returns tt
  end.


(** The requests of the loop of [executemany]. *)
Definition batch_requests (conn : ConnId) (id : option StmtId)
    (seq_of_parameters : list Params) : list Request :=
  map (fun parameters => ReqFetch conn id (Some parameters) None 0) seq_of_parameters.

(** The world after [_set_frame (Some fr)], whatever its outcome. *)
Definition installed (fr : Frame) (w : World) : World :=
  {| cur := with_pos (first_pos fr) (with_frame (Some fr) (cur w));
     srv := srv w; sent := sent w |}.

(** The number of rows a call [fetchmany(size)] may still read. *)
Definition effective_size (size : option Z) (c : Cursor) : Z :=
  match size with None => arraysize c | Some n => n end.

(** What [fetchone] returns for the row [row] once the loop of lines
    201-204 has run on it. *)
Definition read_outcome (dts : list (nat * data_type)) (row : Row)
    : Outcome (option Row) :=
  match coerce dts row with
  | (Returns _, row') => Returns (Some row')
  | (Raises e, _) => Raises e
  end.

(** The callable [_set_signature] chooses for a column class, if any. *)
Definition data_type_of_class (cls : string) : option data_type :=
  if String.eqb cls "java.math.BigDecimal" then Some Decimal
  else if String.eqb cls "java.lang.Float" || String.eqb cls "java.lang.Double"
  then Some float
  else None.

(** The entry of a coercion table for column [j], if any. *)
Fixpoint entry_for (j : nat) (dts : list (nat * data_type)) : option data_type :=
  match dts with
  | [] => None
  | (i, dt) :: rest => if (i =? j)%nat then Some dt else entry_for j rest
  end.

(** A column value as [fetchone] hands it out, given the table entry of its
    column ([None]: no entry) and the value in the buffered row. *)
Definition coerced_value (entry : option data_type) (value : option Value)
    : option Value :=
  match entry, value with
  | Some dt, Some (Some v) =>
      match apply_data_type dt v with
      | Success v' => Some (Some v')
      | Failure _ => value
      end
  | _, _ => value
  end.

(** ** Pagination *)

(** The request [_fetch_next_frame] sends when [fr] is the current frame. *)
Definition next_page_request (c : Cursor) (fr : Frame) : Request :=
  ReqFetch (conn_id (_connection c)) (_id c) None
           (Some (offset fr + Z.of_nat (length (rows fr)))) (itersize c).

(** A page request of the statement the cursor [c] holds. *)
Definition page_request (c : Cursor) (rq : Request) : Prop :=
  exists o, rq = ReqFetch (conn_id (_connection c)) (_id c) None (Some o) (itersize c).

(** The client answers a page request with a frame that starts at the
    offset asked for, or later: a frame's offset is the place of its first
    row in the result. *)
Definition frames_follow_requests : Prop :=
  forall conn id o m s fr s',
    fetch conn id None (Some o) m s = (Success fr, s') -> o <= offset fr.

(** What holds of a world [w] reached from [w0] by fetch operations: the
    requests sent since are page requests with strictly increasing offsets,
    all beyond the offset of the frame buffered in [w0], and, while a row
    is ready, none beyond the offset of the frame buffered now. *)
Definition paging (w0 w : World) : Prop :=
  exists new,
    sent w = sent w0 ++ new
    /\ Forall (page_request (cur w0)) new
    /\ StronglySorted Z.lt (page_offsets new)
    /\ (_connection (cur w), _id (cur w), itersize (cur w))
       = (_connection (cur w0), _id (cur w0), itersize (cur w0))
    /\ (forall fr0, _frame (cur w0) = Some fr0 ->
          Forall (fun o => offset fr0 < o) (page_offsets new))
    /\ (_pos (cur w) = None
        \/ forall fr, _frame (cur w) = Some fr ->
             Forall (fun o => o <= offset fr) (page_offsets new)
             /\ forall fr0, _frame (cur w0) = Some fr0 -> offset fr0 <= offset fr).

(** ** The remaining methods *)

(** [Cursor.__enter__], lines 65-66. *)
Definition __enter__ : M Cursor := self.

(** [Cursor.__iter__], lines 72-73. *)
Definition __iter__ : M Cursor := self.

(** [Cursor.setinputsizes], lines 228-229. *)
Definition setinputsizes (sizes : list Z) : M unit := ret tt.

(** [Cursor.setoutputsize], lines 231-232. *)
Definition setoutputsize (size : Z) (column : option nat) : M unit := ret tt.

(** The property [Cursor.connection], lines 234-237. *)
Definition connection (c : Cursor) : Connection := _connection c.

(** The two read/write attributes of lines 35-47, written by a caller. *)
Definition with_arraysize (v : Z) (c : Cursor) : Cursor :=
  {| _connection := _connection c; _id := _id c; _signature := _signature c;
     _data_types := _data_types c; _frame := _frame c; _pos := _pos c;
     _closed := _closed c; arraysize := v; itersize := itersize c;
     _updatecount := _updatecount c |}.
Definition with_itersize (v : Z) (c : Cursor) : Cursor :=
  {| _connection := _connection c; _id := _id c; _signature := _signature c;
     _data_types := _data_types c; _frame := _frame c; _pos := _pos c;
     _closed := _closed c; arraysize := arraysize c; itersize := v;
     _updatecount := _updatecount c |}.

(** A caller that calls [next] until it raises the [StopIteration] of line
    78 and collects the rows, as a [for] loop over the cursor does; at most
    [fuel] calls.  An exception of the client or of a coercion is taken not
    to be a [StopIteration]. *)
Definition is_StopIteration (e : Exn) : bool :=
  match e with Raised cls _ => bool_decide (cls = "StopIteration") | _ => false end.

Fixpoint iterate (fuel : nat) (acc : list Row) (w : World)
    : option (Outcome (list Row) * World) :=
  match fuel with
  | O => None
  | S k =>
      match next w with
      | (Returns r, w') => iterate k (acc ++ [r]) w'
      | (Raises e, w') =>
          if is_StopIteration e then Some (Returns acc, w')
          else Some (Raises e, w')
      end
  end.

(** One use of the cursor by a caller: a method call or a write to one of
    the two public attributes. *)
Inductive method_step : World -> World -> Prop :=
| use_execute op ps w : method_step w (snd (execute op ps w))
| use_executemany op seq w : method_step w (snd (executemany op seq w))
| use_fetch w w' : fetch_step w w' -> method_step w w'
| use_next w : method_step w (snd (next w))
| use_close w : method_step w (snd (close w))
| use_enter w : method_step w (snd (__enter__ w))
| use_exit w : method_step w (snd (__exit__ w))
| use_del w : method_step w (snd (__del__ w))
| use_iter w : method_step w (snd (__iter__ w))
| use_setinputsizes sizes w : method_step w (snd (setinputsizes sizes w))
| use_setoutputsize size column w :
    method_step w (snd (setoutputsize size column w))
| use_arraysize v w :
    method_step w {| cur := with_arraysize v (cur w); srv := srv w; sent := sent w |}
| use_itersize v w :
    method_step w {| cur := with_itersize v (cur w); srv := srv w; sent := sent w |}.

(** ** More descriptions of states *)

(** [rows[self._pos]] exists whenever a position is set. *)
Definition pos_in_bounds (c : Cursor) : Prop :=
  match _pos c with
  | None => True
  | Some p => exists fr, _frame c = Some fr /\ (p < length (rows fr))%nat
  end.

(** A closed cursor holds nothing. *)
Definition closed_is_empty (c : Cursor) : Prop :=
  _closed c = true ->
  _id c = None /\ _signature c = None /\ _data_types c = []
  /\ _frame c = None /\ _pos c = None.

Definition consistent (c : Cursor) : Prop :=
  pos_in_bounds c /\ closed_is_empty c.

(** What a step from [w] to [w'] did with the statement handle: every
    [closeStatement] sent is for the handle held in [w], which is no longer
    held in [w'], and a handle that was held and is not any more has been
    released. *)
Definition handle_discipline (w w' : World) : Prop :=
  exists new,
    sent w' = sent w ++ new
    /\ _connection (cur w') = _connection (cur w)
    /\ (forall old, _id (cur w) = Some old -> _id (cur w') <> Some old ->
          In (ReqCloseStatement (conn_id (_connection (cur w))) old) new)
    /\ (forall conn h, In (ReqCloseStatement conn h) new ->
          conn = conn_id (_connection (cur w))
          /\ _id (cur w) = Some h /\ _id (cur w') <> Some h).

(** What a fetch operation leaves alone: everything but the frame and the
    position; and what it may send: page requests. *)
Definition only_buffer_changes (w w' : World) : Prop :=
  exists new,
    sent w' = sent w ++ new
    /\ Forall (page_request (cur w)) new
    /\ (_connection (cur w'), _id (cur w'), _signature (cur w'),
        _data_types (cur w'), _closed (cur w'), arraysize (cur w'),
        itersize (cur w'), _updatecount (cur w'))
       = (_connection (cur w), _id (cur w), _signature (cur w),
          _data_types (cur w), _closed (cur w), arraysize (cur w),
          itersize (cur w), _updatecount (cur w)).

Definition is_close (rq : Request) : bool :=
  match rq with ReqCloseStatement _ _ => true | _ => false end.

(** The page of [table] that starts at row [o] and holds at most [m] rows. *)
Definition page_of (table : list Row) (o m : nat) : Frame :=
  {| offset := Z.of_nat o;
     rows := take m (drop o table);
     done := (length table <=? o + m)%nat |}.

(** A client that, in the states [good], answers the page request for
    offset [o] and at most [m] rows with that page of [table]. *)
Definition serves (table : list Row) (good : ClientState -> Prop) : Prop :=
  forall conn id o m s,
    good s ->
    exists s',
      fetch conn id None (Some (Z.of_nat o)) (Z.of_nat m) s
      = (Success (page_of table o m), s')
      /\ good s'.

(** The first request of [execute op ps] in [w] fails with [x]. *)
Definition first_request_fails (w : World) (op : string) (ps : option Params)
    (x : PyExn) (s1 : ClientState) : Prop :=
  let c := cur w in
  match ps with
  | None =>
      prepareAndExecute (conn_id (_connection c)) (_id c) op (itersize c) (srv w)
      = (Failure x, s1)
  | Some _ =>
      prepare (conn_id (_connection c)) (_id c) op (itersize c) (srv w)
      = (Failure x, s1)
  end.

(** The row [fetchone] hands out for the buffered row [row]. *)
Definition coerced (dts : list (nat * data_type)) (row : Row) : Row :=
  snd (coerce dts row).

(** The cursor reads page [o] of [table], served [m] rows at a time, and is
    at row [p] of it; the rows of the buffer from [p] on are as the client
    sent them. *)
Definition reading (table : list Row) (good : ClientState -> Prop) (m : nat)
    (dts : list (nat * data_type)) (w : World) (o p : nat) : Prop :=
  good (srv w)
  /\ itersize (cur w) = Z.of_nat m
  /\ _data_types (cur w) = dts
  /\ _pos (cur w) = Some p
  /\ exists fr,
       _frame (cur w) = Some fr
       /\ offset fr = Z.of_nat o
       /\ done fr = (length table <=? o + m)%nat
       /\ length (rows fr) = length (take m (drop o table))
       /\ (forall k, (p <= k)%nat -> rows fr !! k = take m (drop o table) !! k)
       /\ (p < length (rows fr))%nat.

End Model.

Arguments Value : clear implicits.
Arguments Row : clear implicits.
Arguments Params : clear implicits.
Arguments Frame : clear implicits.
Arguments Cursor : clear implicits.
Arguments Exn : clear implicits.
Arguments Result : clear implicits.
Arguments Request : clear implicits.
Arguments Reply : clear implicits.
Arguments Client : clear implicits.
Arguments Builtins : clear implicits.
Arguments World : clear implicits.
Arguments Outcome : clear implicits.
Arguments M : clear implicits.
Arguments Success {PyExn A} a.
Arguments Failure {PyExn A} e.
Arguments Returns {PyExn A} a.
Arguments Raises {PyExn A} e.

(** ** [closeStatement] as a call that can raise *)

(** The methods that release the statement handle, with [closeStatement]
    taken as the Python call it is at line 91: a call on the client that
    returns nothing or raises, like every other call on it.  Nothing in
    [cursor.py] catches an exception, so what it raises comes out of the
    method.  With a [closeStatement] that never raises these are the
    methods of the model above. *)
Module Fallible.
Section Model.

Context {Obj PyExn ClientState : Type}.

(** [self._connection._client.closeStatement]. *)
Class Closer := mkCloser {
  closeStatement : ConnId -> StmtId -> ClientState -> Reply PyExn unit * ClientState
}.

Context {closer : Closer}.

Local Notation "x <- m ;; k" := (bind m (fun x => k))
  (at level 100, m at next level, right associativity).
Local Notation "m ;;; k" := (bind m (fun _ => k))
  (at level 100, right associativity).

Definition call_closeStatement (conn : ConnId) (id : StmtId)
    : M Obj PyExn ClientState unit :=
  call (ReqCloseStatement conn id) (closeStatement conn id).

(** [Cursor.close], lines 81-97. *)
Definition close : M Obj PyExn ClientState unit :=
  c <- self ;;
  if _closed c then raise "ProgrammingError" "the cursor is already closed"
  else
    (match _id c with
     | Some id =>
         call_closeStatement (conn_id (_connection c)) id ;;;
         assign (with_id None)
     | None => ret tt
     end) ;;;
    assign (with_signature None) ;;;
    assign (with_data_types []) ;;;
    assign (with_frame None) ;;;
    assign (with_pos None) ;;;
    assign (with_closed true).

(** [Cursor.__del__], lines 61-63. *)
Definition __del__ : M Obj PyExn ClientState unit :=
  c <- self ;;
  if negb (conn_closed (_connection c)) && negb (_closed c)
  then close else ret tt.

(** [Cursor.__exit__], lines 68-70. *)
Definition __exit__ : M Obj PyExn ClientState unit :=
  c <- self ;;
  if negb (_closed c) then close else ret tt.

End Model.

Arguments Closer : clear implicits.

End Fallible.

(** The [closeStatement] of the model above, as such a call: it never
    raises. *)
Definition quiet_closer {Obj PyExn ClientState : Type}
    (client : Client Obj PyExn ClientState)
    : Fallible.Closer PyExn ClientState :=
  @Fallible.mkCloser PyExn ClientState
    (fun conn id s => (Success tt, closeStatement conn id s)).

(** ** A concrete server, for running the model *)

Module Demo.

(** Column values: what the wire carries, and what [Decimal] and [float]
    make of it. *)
Inductive DObj :=
| Wire (text : string)
| AsDecimal (text : string)
| AsFloat (text : string).

Definition DExn := string.

#[export] Instance demo_builtins : Builtins DObj DExn :=
  {| py_Decimal v :=
       match v with
       | Wire t | AsDecimal t | AsFloat t => Success (AsDecimal t)
       end;
     py_float v :=
       match v with
       | Wire t | AsDecimal t | AsFloat t => Success (AsFloat t)
       end |}.

(** A server that holds one table and pages through it honestly: the frame
    for [offset = o] starts at row [o].  [silent] makes [prepareAndExecute]
    answer with the empty list. *)
Record Server := mkServer {
  table_signature : option Signature;
  table_rows : list (Row DObj);
  assigned_id : StmtId;
  reported_count : Z;
  silent : bool
}.

Definition page (s : Server) (o m : Z) : Frame DObj :=
  {| offset := o;
     rows := take (Z.to_nat m) (drop (Z.to_nat o) (table_rows s));
     done := Z.of_nat (length (table_rows s)) <=? o + m |}.

#[export] Instance demo_client : Client DObj DExn Server :=
  {| prepareAndExecute _ _ _ m s :=
       (Success
          (if silent s then []
           else [{| ownStatement := true; statementId := assigned_id s;
                    signature := table_signature s;
                    firstFrame := Some (page s 0 m);
                    updateCount := reported_count s |}]),
        s);
     prepare _ _ _ _ s :=
       (Success {| st_id := assigned_id s;
                   st_signature := table_signature s |}, s);
     fetch _ _ _ o m s :=
       (Success (page s (default 0 o) m), s);
     closeStatement _ _ s := s |}.

(** A server that answers every page request with the same non-final frame
    at offset 0. *)
Definition stuck_frame : Frame DObj :=
  {| offset := 0; rows := [[Some (Wire "x")]]; done := false |}.

Definition stuck_client : Client DObj DExn unit :=
  {| prepareAndExecute _ _ _ _ s := (Success [], s);
     prepare _ _ _ _ s := (Success {| st_id := 1; st_signature := None |}, s);
     fetch _ _ _ _ _ s := (Success stuck_frame, s);
     closeStatement _ _ s := s |}.

(** A server whose every request fails. *)
Definition failing_client : Client DObj DExn unit :=
  {| prepareAndExecute _ _ _ _ s := (Failure "unreachable", s);
     prepare _ _ _ _ s := (Failure "unreachable", s);
     fetch _ _ _ _ _ s := (Failure "unreachable", s);
     closeStatement _ _ s := s |}.

Definition conn : Connection := {| conn_id := "c0"; conn_closed := false |}.

Definition column (cls : string) : Column :=
  {| columnName := "C"; type_name := "T"; displaySize := 10; precision := 10;
     scale := 2; nullable := 1; columnClassName := cls |}.

(** A table of five one-column rows, the column a [BigDecimal]. *)
Definition five : Server :=
  {| table_signature := Some {| columns := [column "java.math.BigDecimal"] |};
     table_rows := [[Some (Wire "1")]; [Some (Wire "2")]; [None];
                    [Some (Wire "4")]; [Some (Wire "5")]];
     assigned_id := 8; reported_count := -1; silent := false |}.

(** A fresh cursor on [conn] with [itersize = 2], facing server [s]. *)
Definition fresh (s : Server) : World DObj Server :=
  {| cur := {| _connection := conn; _id := None; _signature := None;
              _data_types := []; _frame := None; _pos := None;
              _closed := false; arraysize := 1; itersize := 2;
              _updatecount := -1 |};
     srv := s; sent := [] |}.

(** The same cursor holding the handle 7 of an earlier statement. *)
Definition held7 : World DObj Server :=
  {| cur := with_id (Some 7) (cur (fresh five)); srv := five; sent := [] |}.

(** The same cursor with [itersize = 0]: the server's first frame is then
    empty and not done. *)
Definition zero_batch : World DObj Server :=
  {| cur := {| _connection := conn; _id := None; _signature := None;
              _data_types := []; _frame := None; _pos := None;
              _closed := false; arraysize := 1; itersize := 0;
              _updatecount := -1 |};
     srv := five; sent := [] |}.

(** The cursor after a query on [five]: a frame of two rows is buffered. *)
Definition queried : World DObj Server :=
  snd (execute "SELECT C FROM T" None (fresh five)).

(** A table with one text column. *)
Definition texts : Server :=
  {| table_signature := Some {| columns := [column "java.lang.String"] |};
     table_rows := [];
     assigned_id := 8; reported_count := -1; silent := false |}.

(** The cursor of [queried], its server now serving [texts]. *)
Definition requeried : World DObj Server :=
  {| cur := cur queried; srv := texts; sent := sent queried |}.

(** A server that reports three affected rows for what it executes. *)
Definition upserts : Server :=
  {| table_signature := None; table_rows := [];
     assigned_id := 8; reported_count := 3; silent := false |}.

(** The cursor of [queried], its server now answering [prepareAndExecute]
    with the empty list. *)
Definition quiet : World DObj Server :=
  {| cur := cur queried;
     srv := {| table_signature := None; table_rows := []; assigned_id := 9;
               reported_count := 0; silent := true |};
     sent := sent queried |}.

(** A cursor with the frame of [stuck_client] buffered. *)
Definition stuck : World DObj unit :=
  {| cur := {| _connection := conn; _id := Some 1; _signature := None;
              _data_types := []; _frame := Some stuck_frame;
              _pos := Some 0%nat; _closed := false; arraysize := 1;
              itersize := 2; _updatecount := -1 |};
     srv := tt; sent := [] |}.

(** The parameters of the runs below. *)
Definition one : Params DObj := [Some (Wire "1")].

(** A server on which a statement can be prepared, under the handle 2, but
    not executed. *)
Definition flaky_client : Client DObj DExn unit :=
  {| prepareAndExecute _ _ _ _ s := (Failure "timeout", s);
     prepare _ _ _ _ s := (Success {| st_id := 2; st_signature := None |}, s);
     fetch _ _ _ _ _ s := (Failure "timeout", s);
     closeStatement _ _ s := s |}.

(** A server whose rows are shorter than its signature: the second column,
    a [BigDecimal], is missing from every row. *)
Definition ragged_signature : Signature :=
  {| columns := [column "java.lang.String"; column "java.math.BigDecimal"] |}.

Definition ragged : Server :=
  {| table_signature := Some ragged_signature;
     table_rows := [[Some (Wire "a")]; [Some (Wire "b")]; [Some (Wire "c")]];
     assigned_id := 8; reported_count := -1; silent := false |}.

(** The cursor after a query on [ragged]: two of the three rows are
    buffered. *)
Definition ragged_query : World DObj Server :=
  snd (execute "SELECT C, D FROM T" None (fresh ragged)).

(** The same cursor after one [fetchone]: at the last row of the frame. *)
Definition ragged_boundary : World DObj Server :=
  snd (fetchone ragged_query).

(** A server that executes one prepared statement and then fails: its
    state counts the [fetch] requests answered. *)
Definition tiring_client : Client DObj DExn nat :=
  {| prepareAndExecute _ _ _ _ s := (Failure "timeout", s);
     prepare _ _ _ _ s := (Success {| st_id := 2; st_signature := None |}, s);
     fetch _ _ _ _ _ s :=
       match s with
       | O => (Success {| offset := 0; rows := []; done := true |}, S s)
       | S _ => (Failure "timeout", s)
       end;
     closeStatement _ _ s := s |}.

(** The cursor of [stuck], facing [tiring_client]. *)
Definition weary : World DObj nat :=
  {| cur := cur stuck; srv := 0%nat; sent := [] |}.


(** The cursor of [queried] after all five rows have been read. *)
Definition drained : World DObj Server :=
  snd (fetchmany (Some 6) queried).

(** The rows of [five] as the cursor delivers them. *)
Definition five_read : list (Row DObj) :=
  [[Some (AsDecimal "1")]; [Some (AsDecimal "2")]; [None];
   [Some (AsDecimal "4")]; [Some (AsDecimal "5")]].

End Demo.

(** * Properties *)

Section Properties.

Context {Obj PyExn ClientState : Type}.
Context {client : Client Obj PyExn ClientState}.
Context {builtins : Builtins Obj PyExn}.

Implicit Types (w : World Obj ClientState) (c : Cursor Obj).
Implicit Types (fr : Frame Obj) (e : Exn PyExn) (row : Row Obj).

(** Unfolding of the monad and of the straight-line methods. *)
Ltac unfold_monad :=
  unfold bind, ret, assign, self, raise, throw, call_closeStatement,
    call_prepareAndExecute, call_prepare, call_fetch, call in *.

(** Attribute reads and writes on a cursor given by its fields.  Used on a
    world that was taken apart first, so that every write yields a record of
    plain values again. *)
Ltac fields :=
  cbv beta iota delta
    [with_id with_signature with_data_types with_frame with_pos with_closed
     with_updatecount _connection _id _signature _data_types _frame _pos
     _closed arraysize itersize _updatecount cur srv sent fst snd installed
     closed_cursor rowcount].

(** The same on a cursor that is not taken apart: reads stay folded. *)
Ltac project :=
  unfold with_id, with_signature, with_data_types, with_frame, with_pos,
    with_closed, with_updatecount;
  cbn [_connection _id _signature _data_types _frame _pos _closed arraysize
       itersize _updatecount cur srv sent].

Ltac fields_in H :=
  cbv beta iota delta
    [with_id with_signature with_data_types with_frame with_pos with_closed
     with_updatecount _connection _id _signature _data_types _frame _pos
     _closed arraysize itersize _updatecount cur srv sent fst snd installed
     closed_cursor rowcount] in H.

Ltac open_world w :=
  let cn := fresh "cn" in let i := fresh "i" in let sg := fresh "sg" in
  let dts := fresh "dts" in let f := fresh "f" in let p := fresh "p" in
  let cl := fresh "cl" in let a := fresh "a" in let it := fresh "it" in
  let u := fresh "u" in let s := fresh "s" in let l := fresh "l" in
  destruct w as [[cn i sg dts f p cl a it u] s l].

Ltac run :=
  unfold _set_frame, _set_signature, _set_id in *; unfold_monad; simpl in *.

(** ** Evaluation of the two [raise] statements *)

Lemma raise_ProgrammingError msg :
  raise_exn (PyExn:=PyExn) "ProgrammingError" msg = Raised "ProgrammingError" msg.
Proof. reflexivity. Qed.

Lemma raise_InternalError msg :
  raise_exn (PyExn:=PyExn) "InternalError" msg = NameError "InternalError".
Proof. reflexivity. Qed.

Lemma InternalError_unbound : "InternalError" ∉ module_names ++ builtin_names.
Proof.
  unfold module_names, builtin_names; simpl.
  rewrite !elem_of_cons, elem_of_nil. intros H.
  repeat (destruct H as [H|H]; [discriminate H|]). exact H.
Qed.

(** ** Frames *)

Lemma set_frame_Some fr w :
  _set_frame (PyExn:=PyExn) (Some fr) w = (frame_outcome fr, installed fr w).
Proof.
  unfold installed, frame_outcome, first_pos. run.
  destruct (rows fr) as [|r rs]; simpl.
  - destruct (done fr); reflexivity.
  - reflexivity.
Qed.

Lemma frame_outcome_cases fr :
  frame_outcome (PyExn:=PyExn) fr =
  if bool_decide (rows fr = []) && negb (done fr)
  then Raises (NameError "InternalError") else Returns tt.
Proof.
  unfold frame_outcome. destruct (rows fr); simpl; [|reflexivity].
  destruct (done fr); reflexivity.
Qed.

Lemma set_frame_None w :
  _set_frame (PyExn:=PyExn) None w =
  (Returns tt,
   {| cur := with_pos None (with_frame None (cur w)); srv := srv w; sent := sent w |}).
Proof. reflexivity. Qed.

(** C1.  A frame with no rows that is not marked done, installed by
    [_set_frame] (the only place a frame is installed, for the first frame
    and for every later page): the call raises at once, the frame is stored
    with no position ready, nothing is sent to the client, and the next
    [fetchone] reports the end of the results without a request.  The
    exception raised is Python's [NameError] for the unbound name
    [InternalError]: it is not the protocol-violation error. *)
Theorem set_frame_empty_not_done (o : Z) w :
  let fr := {| offset := o; rows := []; done := false |} in
  let w' := {| cur := with_pos None (with_frame (Some fr) (cur w));
               srv := srv w; sent := sent w |} in
  _set_frame (PyExn:=PyExn) (Some fr) w = (Raises (NameError "InternalError"), w')
  /\ is_ProtocolViolation (PyExn:=PyExn) (NameError "InternalError") = false
  /\ _pos (cur w') = None
  /\ sent w' = sent w
  /\ fetchone w' = (Returns None, w').
Proof.
  intros fr w'. split; [|split; [|split; [|split]]].
  - rewrite set_frame_Some, frame_outcome_cases. reflexivity.
  - reflexivity.
  - reflexivity.
  - reflexivity.
  - reflexivity.
Qed.

(** ** The steps methods are made of *)

Lemma call_prepare_ok conn id op m w st s1 :
  prepare conn id op m (srv w) = (Success st, s1) ->
  call_prepare conn id op m w =
  (Returns st, {| cur := cur w; srv := s1; sent := sent w ++ [ReqPrepare conn id op m] |}).
Proof. intros H. unfold call_prepare, call. rewrite H. reflexivity. Qed.

Lemma call_prepare_fails conn id op m w x s1 :
  prepare conn id op m (srv w) = (Failure x, s1) ->
  call_prepare conn id op m w =
  (Raises (Foreign x),
   {| cur := cur w; srv := s1; sent := sent w ++ [ReqPrepare conn id op m] |}).
Proof. intros H. unfold call_prepare, call. rewrite H. reflexivity. Qed.

Lemma call_fetch_ok conn id ps o m w fr s1 :
  fetch conn id ps o m (srv w) = (Success fr, s1) ->
  call_fetch conn id ps o m w =
  (Returns fr, {| cur := cur w; srv := s1; sent := sent w ++ [ReqFetch conn id ps o m] |}).
Proof. intros H. unfold call_fetch, call. rewrite H. reflexivity. Qed.

Lemma call_fetch_fails conn id ps o m w x s1 :
  fetch conn id ps o m (srv w) = (Failure x, s1) ->
  call_fetch conn id ps o m w =
  (Raises (Foreign x),
   {| cur := cur w; srv := s1; sent := sent w ++ [ReqFetch conn id ps o m] |}).
Proof. intros H. unfold call_fetch, call. rewrite H. reflexivity. Qed.

Lemma call_prepareAndExecute_ok conn id op m w rs s1 :
  prepareAndExecute conn id op m (srv w) = (Success rs, s1) ->
  call_prepareAndExecute conn id op m w =
  (Returns rs,
   {| cur := cur w; srv := s1; sent := sent w ++ [ReqPrepareAndExecute conn id op m] |}).
Proof. intros H. unfold call_prepareAndExecute, call. rewrite H. reflexivity. Qed.

Lemma call_prepareAndExecute_fails conn id op m w x s1 :
  prepareAndExecute conn id op m (srv w) = (Failure x, s1) ->
  call_prepareAndExecute conn id op m w =
  (Raises (Foreign x),
   {| cur := cur w; srv := s1; sent := sent w ++ [ReqPrepareAndExecute conn id op m] |}).
Proof. intros H. unfold call_prepareAndExecute, call. rewrite H. reflexivity. Qed.

Lemma set_id_eq id w :
  let conn := conn_id (_connection (cur w)) in
  _set_id (PyExn:=PyExn) id w =
  (Returns tt,
   {| cur := with_id (Some id) (cur w);
      srv := released conn (stale (_id (cur w)) id) (srv w);
      sent := sent w ++ release conn (stale (_id (cur w)) id) |}).
Proof.
  destruct w as [c s l]. unfold _set_id, stale. unfold_monad. simpl.
  destruct (_id c) as [old|]; simpl.
  - destruct (negb (old =? id)); simpl; [reflexivity|].
    rewrite app_nil_r. reflexivity.
  - rewrite app_nil_r. reflexivity.
Qed.

Lemma set_signature_eq sg w :
  _set_signature (PyExn:=PyExn) sg w =
  (Returns tt,
   {| cur := with_data_types (data_types_of sg) (with_signature sg (cur w));
      srv := srv w; sent := sent w |}).
Proof. destruct sg; reflexivity. Qed.

(** ** [fetchone] *)

Lemma fetch_next_frame_eq w fr :
  _frame (cur w) = Some fr ->
  _fetch_next_frame w =
  match fetch (conn_id (_connection (cur w))) (_id (cur w)) None
              (Some (offset fr + Z.of_nat (length (rows fr))))
              (itersize (cur w)) (srv w) with
  | (Success fr2, s2) =>
      (frame_outcome fr2,
       installed fr2 {| cur := cur w; srv := s2;
                        sent := sent w ++ [next_page_request (cur w) fr] |})
  | (Failure x, s2) =>
      (Raises (Foreign x),
       {| cur := cur w; srv := s2;
          sent := sent w ++ [next_page_request (cur w) fr] |})
  end.
Proof.
  intros Hfr. unfold _fetch_next_frame, bind at 1, self at 1. rewrite Hfr.
  unfold bind at 1, next_page_request.
  destruct (fetch (conn_id (_connection (cur w))) (_id (cur w)) None
              (Some (offset fr + Z.of_nat (length (rows fr))))
              (itersize (cur w)) (srv w)) as [[fr2|x] s2] eqn:Hf.
  - erewrite call_fetch_ok by exact Hf. apply set_frame_Some.
  - erewrite call_fetch_fails by exact Hf. reflexivity.
Qed.

(** The world [fetchone] leaves when a row is ready at the position. *)
Lemma fetchone_world w fr p row :
  let c := cur w in
  let last := (length (rows fr) <=? S p)%nat in
  let stored := {| offset := offset fr;
                   rows := <[p := snd (coerce (_data_types c) row)]> (rows fr);
                   done := done fr |} in
  _frame c = Some fr -> _pos c = Some p -> rows fr !! p = Some row ->
  snd (fetchone w) =
  if last && negb (done fr) then
    match fetch (conn_id (_connection c)) (_id c) None
                (Some (offset fr + Z.of_nat (length (rows fr)))) (itersize c)
                (srv w) with
    | (Success fr2, s2) =>
        {| cur := with_pos (first_pos fr2) (with_frame (Some fr2) c);
           srv := s2; sent := sent w ++ [next_page_request c fr] |}
    | (Failure _, s2) =>
        {| cur := with_pos None c;
           srv := s2; sent := sent w ++ [next_page_request c fr] |}
    end
  else
    {| cur := with_frame (Some stored)
                (with_pos (if last then None else Some (S p)) c);
       srv := srv w; sent := sent w |}.
Proof.
  intros c last stored Hfr Hpos Hrow. subst c last stored. open_world w.
  fields_in Hfr. fields_in Hpos. subst f p0. unfold next_page_request.
  unfold fetchone, bind at 1, self at 1. fields. rewrite Hrow.
  unfold bind at 1, assign at 1. fields. unfold bind at 1.
  destruct (length (rows fr) <=? S p)%nat.
  - unfold bind at 1, assign at 1. fields.
    destruct (done fr); cbn [negb andb].
    + unfold ret at 1. unfold bind at 1, self at 1. fields.
      destruct (coerce dts row) as [[[]|e] row']; reflexivity.
    + erewrite fetch_next_frame_eq by reflexivity. fields.
      unfold next_page_request. fields.
      destruct (fetch (conn_id cn) i None
                  (Some (offset fr + Z.of_nat (length (rows fr)))) it s)
        as [[fr2|x] s2]; [|reflexivity].
      fields.
      destruct (frame_outcome fr2) as [[]|e]; [|reflexivity].
      unfold bind at 1, self at 1. fields.
      destruct (coerce dts row) as [[[]|e] row']; reflexivity.
  - unfold ret at 1. cbn [andb]. unfold bind at 1, self at 1. fields.
    destruct (coerce dts row) as [[[]|e] row']; reflexivity.
Qed.

(** What [fetchone] returns when a row is ready at the position. *)
Lemma fetchone_outcome w fr p row :
  let c := cur w in
  let last := (length (rows fr) <=? S p)%nat in
  _frame c = Some fr -> _pos c = Some p -> rows fr !! p = Some row ->
  fst (fetchone w) =
  if last && negb (done fr) then
    match fetch (conn_id (_connection c)) (_id c) None
                (Some (offset fr + Z.of_nat (length (rows fr)))) (itersize c)
                (srv w) with
    | (Success fr2, _) =>
        match frame_outcome fr2 with
        | Returns _ => read_outcome (_data_types c) row
        | Raises e => Raises e
        end
    | (Failure x, _) => Raises (Foreign x)
    end
  else read_outcome (_data_types c) row.
Proof.
  intros c last Hfr Hpos Hrow. subst c last. open_world w.
  fields_in Hfr. fields_in Hpos. subst f p0. unfold read_outcome.
  unfold fetchone, bind at 1, self at 1. fields. rewrite Hrow.
  unfold bind at 1, assign at 1. fields. unfold bind at 1.
  destruct (length (rows fr) <=? S p)%nat.
  - unfold bind at 1, assign at 1. fields.
    destruct (done fr); cbn [negb andb].
    + unfold ret at 1. unfold bind at 1, self at 1. fields.
      destruct (coerce dts row) as [[[]|e] row']; reflexivity.
    + erewrite fetch_next_frame_eq by reflexivity. fields.
      destruct (fetch (conn_id cn) i None
                  (Some (offset fr + Z.of_nat (length (rows fr)))) it s)
        as [[fr2|x] s2]; [|reflexivity].
      fields.
      destruct (frame_outcome fr2) as [[]|e]; [|reflexivity].
      unfold bind at 1, self at 1. fields.
      destruct (coerce dts row) as [[[]|e] row']; reflexivity.
  - unfold ret at 1. cbn [andb]. unfold bind at 1, self at 1. fields.
    destruct (coerce dts row) as [[[]|e] row']; reflexivity.
Qed.

(** Without a row ready at the position [fetchone] changes nothing. *)
Lemma fetchone_idle w :
  (_frame (cur w) = None \/ _pos (cur w) = None
   \/ exists fr p, _frame (cur w) = Some fr /\ _pos (cur w) = Some p
                   /\ rows fr !! p = None) ->
  snd (fetchone w) = w.
Proof.
  intros H. unfold fetchone, bind, self.
  destruct H as [H | [H | (fr & p & Hfr & Hpos & Hrow)]].
  - rewrite H. reflexivity.
  - rewrite H. destruct (_frame (cur w)); reflexivity.
  - rewrite Hfr, Hpos, Hrow. reflexivity.
Qed.

Lemma fetchone_cases w :
  snd (fetchone w) = w
  \/ exists fr p row,
       _frame (cur w) = Some fr /\ _pos (cur w) = Some p
       /\ rows fr !! p = Some row.
Proof.
  destruct (_frame (cur w)) as [fr|] eqn:Hfr;
    [|left; apply fetchone_idle; auto].
  destruct (_pos (cur w)) as [p|] eqn:Hpos;
    [|left; apply fetchone_idle; auto].
  destruct (rows fr !! p) as [row|] eqn:Hrow.
  - right. exists fr, p, row. auto.
  - left. apply fetchone_idle. right. right. exists fr, p. auto.
Qed.

(** ** [close] *)

Lemma close_closed w :
  _closed (cur w) = true ->
  close w = (Raises (Raised "ProgrammingError" "the cursor is already closed"), w).
Proof. intros H. unfold close. unfold_monad. rewrite H. reflexivity. Qed.

Lemma close_open w :
  _closed (cur w) = false ->
  close w =
  (Returns tt,
   {| cur := closed_cursor (cur w);
      srv := released (conn_id (_connection (cur w))) (_id (cur w)) (srv w);
      sent := sent w ++ release (conn_id (_connection (cur w))) (_id (cur w)) |}).
Proof.
  intros H. destruct w as [c s l]. destruct c as [cn i sg dts f p cl a it u].
  simpl in H. subst cl. unfold close, closed_cursor. unfold_monad. simpl.
  destruct i as [i|]; simpl.
  - reflexivity.
  - rewrite app_nil_r. reflexivity.
Qed.

(** ** Operations on a cursor without a frame, and on a closed cursor *)

Lemma execute_closed op ps w :
  _closed (cur w) = true ->
  execute op ps w = (Raises (Raised "ProgrammingError" "the cursor is already closed"), w).
Proof. intros H. unfold execute. unfold_monad. rewrite H. reflexivity. Qed.

Lemma executemany_closed op seq w :
  _closed (cur w) = true ->
  executemany op seq w = (Raises (Raised "ProgrammingError" "the cursor is already closed"), w).
Proof. intros H. unfold executemany. unfold_monad. rewrite H. reflexivity. Qed.

Lemma fetchone_no_frame w :
  _frame (cur w) = None ->
  fetchone w = (Raises (Raised "ProgrammingError" "no select statement was executed"), w).
Proof. intros H. unfold fetchone. unfold_monad. rewrite H. reflexivity. Qed.

Lemma next_no_frame w :
  _frame (cur w) = None ->
  next w = (Raises (Raised "ProgrammingError" "no select statement was executed"), w).
Proof.
  intros H. unfold next, bind. rewrite (fetchone_no_frame _ H). reflexivity.
Qed.

Lemma fetchall_no_frame fuel w :
  _frame (cur w) = None ->
  fetchall (S fuel) w =
  Some (Raises (Raised "ProgrammingError" "no select statement was executed"), w).
Proof.
  intros H. unfold fetchall. simpl. rewrite (fetchone_no_frame _ H). reflexivity.
Qed.

Lemma fetchmany_no_frame size w :
  _frame (cur w) = None ->
  fetchmany size w =
  if 0 <? effective_size size (cur w)
  then (Raises (Raised "ProgrammingError" "no select statement was executed"), w)
  else (Returns [], w).
Proof.
  intros H. unfold fetchmany, effective_size, bind, self.
  set (n := match size with None => arraysize (cur w) | Some n => n end).
  destruct (Z.ltb_spec 0 n) as [Hn|Hn].
  - destruct (Z.to_nat n) as [|k] eqn:E; [lia|].
    simpl. unfold bind. rewrite (fetchone_no_frame _ H). reflexivity.
  - replace (Z.to_nat n) with 0%nat by lia. reflexivity.
Qed.

(** [close] and the closed cursor, with a [closeStatement] that returns.
    [close] on a closed cursor raises [ProgrammingError] and changes
    nothing.  On an open cursor it returns, sends one [closeStatement] when a
    handle is held and nothing otherwise, clears the handle, the signature,
    the coercion table, the frame and the position, and marks the cursor
    closed; the properties [closed], [description], [rownumber] and
    [rowcount] still answer; after that [close], [execute], [executemany],
    [fetchone], [next] and [fetchall] raise [ProgrammingError], and so does
    [fetchmany] when the number of rows asked for is positive, while
    [fetchmany] with a number that is not positive returns the empty list. *)
Theorem close_spec w :
  if _closed (cur w)
  then exists e, close w = (Raises e, w) /\ is_StateError e = true
  else
    let conn := conn_id (_connection (cur w)) in
    let w' := {| cur := closed_cursor (cur w);
                 srv := released conn (_id (cur w)) (srv w);
                 sent := sent w ++ release conn (_id (cur w)) |} in
    close w = (Returns tt, w')
    /\ sent w' = sent w ++ match _id (cur w) with
                            | Some id => [ReqCloseStatement conn id]
                            | None => []
                            end
    /\ (_id (cur w'), _signature (cur w'), _data_types (cur w'),
        _frame (cur w'), _pos (cur w'), _closed (cur w'))
       = (None, None, [], None, None, true)
    /\ (closed (cur w'), description (cur w'), rownumber (cur w'),
        rowcount (cur w'))
       = (true, None, None, rowcount (cur w))
    /\ (exists e, close w' = (Raises e, w') /\ is_StateError e = true)
    /\ (forall op ps, exists e,
          execute op ps w' = (Raises e, w') /\ is_StateError e = true)
    /\ (forall op seq, exists e,
          executemany op seq w' = (Raises e, w') /\ is_StateError e = true)
    /\ (exists e, fetchone w' = (Raises e, w') /\ is_StateError e = true)
    /\ (exists e, next w' = (Raises e, w') /\ is_StateError e = true)
    /\ (forall fuel, exists e,
          fetchall (S fuel) w' = Some (Raises e, w') /\ is_StateError e = true)
    /\ (forall size,
          if 0 <? effective_size size (cur w')
          then exists e, fetchmany size w' = (Raises e, w') /\ is_StateError e = true
          else fetchmany size w' = (Returns [], w')).
Proof.
  destruct (_closed (cur w)) eqn:Hc.
  - eexists. split; [apply close_closed; exact Hc | reflexivity].
  - intros conn w'.
    assert (Hc' : _closed (cur w') = true) by reflexivity.
    assert (Hf' : _frame (cur w') = None) by reflexivity.
    repeat split.
    + apply close_open; exact Hc.
    + eexists; split; [apply close_closed; exact Hc' | reflexivity].
    + intros op ps. eexists; split; [apply execute_closed; exact Hc' | reflexivity].
    + intros op seq. eexists; split; [apply executemany_closed; exact Hc' | reflexivity].
    + eexists; split; [apply fetchone_no_frame; exact Hf' | reflexivity].
    + eexists; split; [apply next_no_frame; exact Hf' | reflexivity].
    + intros fuel. eexists; split; [apply fetchall_no_frame; exact Hf' | reflexivity].
    + intros size. rewrite (fetchmany_no_frame size w' Hf').
      destruct (0 <? effective_size size (cur w')).
      * eexists; split; reflexivity.
      * reflexivity.
Qed.

(** ** [__del__] *)

Lemma del_guard w :
  __del__ w =
  if negb (conn_closed (_connection (cur w))) && negb (_closed (cur w))
  then close w else (Returns tt, w).
Proof.
  unfold __del__, bind, self, ret.
  destruct (negb (conn_closed (_connection (cur w))) && negb (_closed (cur w)));
    reflexivity.
Qed.

(** In the other cases of its guard [__del__] does nothing. *)
Lemma del_noop w :
  conn_closed (_connection (cur w)) = true \/ _closed (cur w) = true ->
  __del__ w = (Returns tt, w).
Proof.
  intros H. rewrite del_guard.
  destruct H as [-> | ->]; [reflexivity|].
  rewrite andb_false_r. reflexivity.
Qed.

(** ** [execute] *)

(** C2 (as the code has it).  [execute] with parameters on an open cursor,
    when [prepare] and the [fetch] that follows succeed: the requests sent
    are the [prepare] with [maxRowCount = itersize], a [closeStatement] for
    the handle held before when it is another one, and one [fetch] with the
    parameters and [fetchMaxRowCount = itersize]; the handle returned by
    [prepare] is adopted, its signature and the coercion table derived from
    it are installed, and the frame returned by [fetch] is the current
    frame. *)
Theorem execute_with_parameters w op ps st s1 fr s2 :
  let c := cur w in
  let conn := conn_id (_connection c) in
  _closed c = false ->
  prepare conn (_id c) op (itersize c) (srv w) = (Success st, s1) ->
  fetch conn (Some (st_id st)) (Some ps) None (itersize c)
        (released conn (stale (_id c) (st_id st)) s1) = (Success fr, s2) ->
  execute op (Some ps) w =
  (frame_outcome fr,
   {| cur := {| _connection := _connection c;
                _id := Some (st_id st);
                _signature := st_signature st;
                _data_types := data_types_of (st_signature st);
                _frame := Some fr;
                _pos := first_pos fr;
                _closed := false;
                arraysize := arraysize c;
                itersize := itersize c;
                _updatecount := -1 |};
      srv := s2;
      sent := sent w ++ [ReqPrepare conn (_id c) op (itersize c)]
                     ++ release conn (stale (_id c) (st_id st))
                     ++ [ReqFetch conn (Some (st_id st)) (Some ps) None (itersize c)] |}).
Proof.
  intros c conn Hc Hp Hf. subst c conn. open_world w.
  fields_in Hc. fields_in Hp. fields_in Hf. subst cl.
  unfold execute, bind at 1, self at 1. fields.
  unfold bind at 1, assign at 1. unfold bind at 1. fields.
  erewrite call_prepare_ok by exact Hp. fields.
  unfold bind at 1. rewrite set_id_eq. fields.
  unfold bind at 1. rewrite set_signature_eq. fields.
  unfold bind at 1, self at 1. fields.
  unfold bind at 1.
  erewrite call_fetch_ok by exact Hf. fields.
  rewrite set_frame_Some. fields.
  rewrite <- !app_assoc. reflexivity.
Qed.

(** [execute] without parameters when the client returns at least one
    result: the first result decides everything. *)
Lemma execute_first_result w op result rest s1 :
  let c := cur w in
  let conn := conn_id (_connection c) in
  let old := if ownStatement result then stale (_id c) (statementId result) else None in
  let o := match firstFrame result with
           | None => Returns tt
           | Some fr => frame_outcome fr
           end in
  _closed c = false ->
  prepareAndExecute conn (_id c) op (itersize c) (srv w) = (Success (result :: rest), s1) ->
  execute op None w =
  (o,
   {| cur := {| _connection := _connection c;
                _id := if ownStatement result then Some (statementId result) else _id c;
                _signature := signature result;
                _data_types := data_types_of (signature result);
                _frame := firstFrame result;
                _pos := match firstFrame result with
                        | None => None
                        | Some fr => first_pos fr
                        end;
                _closed := false;
                arraysize := arraysize c;
                itersize := itersize c;
                _updatecount := match o with
                                | Returns _ => updateCount result
                                | Raises _ => -1
                                end |};
      srv := released conn old s1;
      sent := sent w ++ [ReqPrepareAndExecute conn (_id c) op (itersize c)]
                     ++ release conn old |}).
Proof.
  intros c conn old o Hc Hp. subst c conn old o. open_world w.
  fields_in Hc. fields_in Hp. subst cl.
  unfold execute, bind at 1, self at 1. fields.
  unfold bind at 1, assign at 1. unfold bind at 1. fields.
  erewrite call_prepareAndExecute_ok by exact Hp. fields.
  unfold bind at 1.
  destruct (ownStatement result).
  - rewrite set_id_eq. fields. unfold bind at 1.
    rewrite set_signature_eq. fields. unfold bind at 1.
    destruct (firstFrame result) as [fr|].
    + rewrite set_frame_Some. fields.
      destruct (frame_outcome fr) as [[]|e]; unfold assign; fields;
        rewrite <- ?app_assoc, ?app_nil_r; reflexivity.
    + rewrite set_frame_None. unfold assign. fields.
      rewrite <- ?app_assoc, ?app_nil_r. reflexivity.
  - unfold ret at 1. unfold bind at 1.
    rewrite set_signature_eq. fields. unfold bind at 1.
    destruct (firstFrame result) as [fr|].
    + rewrite set_frame_Some. fields.
      destruct (frame_outcome fr) as [[]|e]; unfold assign; fields;
        rewrite <- ?app_assoc, ?app_nil_r; reflexivity.
    + rewrite set_frame_None. unfold assign. fields.
      rewrite <- ?app_assoc, ?app_nil_r. reflexivity.
Qed.

(** C10.  [execute] without parameters on an open cursor, when
    [prepareAndExecute] returns the empty list: the call returns, one request
    was sent, and the cursor is the one before the call with [_updatecount]
    reset to [-1], so handle, signature, coercion table, frame and position
    are the old ones.  A [fetchone] that follows reads the row buffered at
    the position, as it would have before the call: it returns that row,
    coerced, after asking for the next page when the row is the last of a
    frame that is not done. *)
Theorem execute_empty_result_list w op s1 :
  let c := cur w in
  let conn := conn_id (_connection c) in
  let w1 := {| cur := with_updatecount (-1) c; srv := s1;
               sent := sent w ++ [ReqPrepareAndExecute conn (_id c) op (itersize c)] |} in
  _closed c = false ->
  prepareAndExecute conn (_id c) op (itersize c) (srv w) = (Success [], s1) ->
  execute op None w = (Returns tt, w1)
  /\ (_id (cur w1), _signature (cur w1), _data_types (cur w1),
      _frame (cur w1), _pos (cur w1))
     = (_id c, _signature c, _data_types c, _frame c, _pos c)
  /\ rowcount (cur w1) = -1
  /\ forall fr p row,
       _frame c = Some fr -> _pos c = Some p -> rows fr !! p = Some row ->
       fst (fetchone w1) =
       if (length (rows fr) <=? S p)%nat && negb (done fr) then
         match fetch conn (_id c) None
                     (Some (offset fr + Z.of_nat (length (rows fr))))
                     (itersize c) s1 with
         | (Success fr2, _) =>
             match frame_outcome fr2 with
             | Returns _ => read_outcome (_data_types c) row
             | Raises e => Raises e
             end
         | (Failure x, _) => Raises (Foreign x)
         end
       else read_outcome (_data_types c) row.
Proof.
  intros c conn w1 Hc Hp. subst c conn. split; [|split; [|split]].
  - subst w1. open_world w. fields_in Hc. fields_in Hp. subst cl. fields.
    unfold execute, bind at 1, self at 1. fields.
    unfold bind at 1, assign at 1. unfold bind at 1. fields.
    erewrite call_prepareAndExecute_ok by exact Hp. reflexivity.
  - reflexivity.
  - reflexivity.
  - intros fr p row Hfr Hpos Hrow.
    exact (fetchone_outcome w1 fr p row Hfr Hpos Hrow).
Qed.

(** C5 (as the code has it).  After [execute] on an open cursor the update
    count is [-1], except when the call had no parameters, the client
    returned a non-empty list and the call returned: then it is the
    [updateCount] of the first result.  With parameters it is [-1] in every
    case. *)
Theorem execute_rowcount w op ps :
  let c := cur w in
  let conn := conn_id (_connection c) in
  _closed c = false ->
  rowcount (cur (snd (execute op ps w))) =
  match ps with
  | Some _ => -1
  | None =>
      match fst (prepareAndExecute conn (_id c) op (itersize c) (srv w)) with
      | Success (result :: _) =>
          match fst (execute op None w) with
          | Returns _ => updateCount result
          | Raises _ => -1
          end
      | _ => -1
      end
  end.
Proof.
  intros c conn Hc. subst c conn. destruct ps as [ps|].
  - open_world w. fields_in Hc. subst cl. fields.
    unfold execute, bind at 1, self at 1. fields.
    unfold bind at 1, assign at 1. unfold bind at 1. fields.
    destruct (prepare (conn_id cn) i op it s) as [[st|x] s1] eqn:Hp.
    + erewrite call_prepare_ok by exact Hp. fields.
      unfold bind at 1. rewrite set_id_eq. fields.
      unfold bind at 1. rewrite set_signature_eq. fields.
      unfold bind at 1, self at 1. fields.
      unfold bind at 1.
      match goal with
      | |- context [call_fetch ?a ?b ?c ?d ?e ?w0] =>
          destruct (fetch a b c d e (srv w0)) as [[fr|x] s2] eqn:Hf
      end.
      * erewrite call_fetch_ok by exact Hf. fields.
        rewrite set_frame_Some. reflexivity.
      * erewrite call_fetch_fails by exact Hf. reflexivity.
    + erewrite call_prepare_fails by exact Hp. reflexivity.
  - destruct (prepareAndExecute (conn_id (_connection (cur w))) (_id (cur w)) op
                (itersize (cur w)) (srv w)) as [[[|result rest]|x] s1] eqn:Hp.
    + open_world w. fields_in Hc. fields_in Hp. subst cl. fields.
      unfold execute, bind at 1, self at 1. fields.
      unfold bind at 1, assign at 1. unfold bind at 1. fields.
      erewrite call_prepareAndExecute_ok by exact Hp. reflexivity.
    + rewrite (execute_first_result w op result rest s1 Hc Hp). cbn [fst snd].
      reflexivity.
    + open_world w. fields_in Hc. fields_in Hp. subst cl. fields.
      unfold execute, bind at 1, self at 1. fields.
      unfold bind at 1, assign at 1. unfold bind at 1. fields.
      erewrite call_prepareAndExecute_fails by exact Hp. reflexivity.
Qed.

(** The two operations that install a frame, at a frame with no rows that
    is not done: the first frame of [execute], and a later page in
    [fetchone]. *)
Lemma execute_empty_first_frame w op result rest s1 o :
  _closed (cur w) = false ->
  prepareAndExecute (conn_id (_connection (cur w))) (_id (cur w)) op
                    (itersize (cur w)) (srv w) = (Success (result :: rest), s1) ->
  firstFrame result = Some {| offset := o; rows := []; done := false |} ->
  fst (execute op None w) = Raises (NameError "InternalError")
  /\ _pos (cur (snd (execute op None w))) = None
  /\ rowcount (cur (snd (execute op None w))) = -1.
Proof.
  intros Hc Hp Hff. rewrite (execute_first_result w op result rest s1 Hc Hp).
  rewrite Hff. repeat split.
Qed.

Lemma fetchone_empty_next_page w fr p row o s2 :
  let c := cur w in
  let empty := {| offset := o; rows := []; done := false |} in
  _frame c = Some fr -> _pos c = Some p -> rows fr !! p = Some row ->
  (length (rows fr) <= S p)%nat -> done fr = false ->
  fetch (conn_id (_connection c)) (_id c) None
        (Some (offset fr + Z.of_nat (length (rows fr)))) (itersize c) (srv w)
  = (Success empty, s2) ->
  fetchone w =
  (Raises (NameError "InternalError"),
   {| cur := with_pos None (with_frame (Some empty) c); srv := s2;
      sent := sent w ++ [next_page_request c fr] |}).
Proof.
  intros c empty Hfr Hpos Hrow Hlast Hdone Hf. subst c empty.
  rewrite (surjective_pairing (fetchone w)).
  rewrite (fetchone_outcome w fr p row Hfr Hpos Hrow).
  rewrite (fetchone_world w fr p row Hfr Hpos Hrow).
  apply Nat.leb_le in Hlast. rewrite Hlast, Hdone, Hf. reflexivity.
Qed.

(** ** [executemany] *)

Lemma executemany_loop_step ps rest w :
  executemany_loop (ps :: rest) w =
  match call_fetch (conn_id (_connection (cur w))) (_id (cur w)) (Some ps) None 0 w with
  | (Returns _, w') => executemany_loop rest w'
  | (Raises e, w') => (Raises e, w')
  end.
Proof. reflexivity. Qed.

(** The loop only talks to the client: the cursor is not touched. *)
Lemma executemany_loop_cur seq w :
  cur (snd (executemany_loop seq w)) = cur w.
Proof.
  revert w. induction seq as [|ps rest IH]; intros w; [reflexivity|].
  rewrite executemany_loop_step.
  destruct (fetch (conn_id (_connection (cur w))) (_id (cur w)) (Some ps) None 0
              (srv w)) as [[fr|x] s1] eqn:Hf.
  - erewrite call_fetch_ok by exact Hf. rewrite IH. reflexivity.
  - erewrite call_fetch_fails by exact Hf. reflexivity.
Qed.


(** What [executemany] has done when it reaches its loop. *)
Lemma executemany_prefix w op seq st s1 :
  let c := cur w in
  let conn := conn_id (_connection c) in
  _closed c = false ->
  prepare conn (_id c) op 0 (srv w) = (Success st, s1) ->
  executemany op seq w =
  executemany_loop seq
    {| cur := {| _connection := _connection c;
                 _id := Some (st_id st);
                 _signature := st_signature st;
                 _data_types := _data_types c;
                 _frame := None;
                 _pos := None;
                 _closed := false;
                 arraysize := arraysize c;
                 itersize := itersize c;
                 _updatecount := -1 |};
       srv := released conn (stale (_id c) (st_id st)) s1;
       sent := sent w ++ [ReqPrepare conn (_id c) op 0]
                      ++ release conn (stale (_id c) (st_id st)) |}.
Proof.
  intros c conn Hc Hp. subst c conn. open_world w.
  fields_in Hc. fields_in Hp. subst cl. fields.
  unfold executemany, bind at 1, self at 1. fields.
  unfold bind at 1, assign at 1. unfold bind at 1. fields.
  rewrite set_frame_None. fields.
  unfold bind at 1, self at 1. fields. unfold bind at 1.
  erewrite call_prepare_ok by exact Hp. fields.
  unfold bind at 1. rewrite set_id_eq. fields.
  unfold bind at 1, assign at 1. fields.
  rewrite <- app_assoc. reflexivity.
Qed.


(** Whatever the client does, [executemany] on an open cursor leaves no
    frame and no position. *)
Lemma executemany_clears_frame w op seq :
  _closed (cur w) = false ->
  _frame (cur (snd (executemany op seq w))) = None
  /\ _pos (cur (snd (executemany op seq w))) = None.
Proof.
  intros Hc.
  destruct (prepare (conn_id (_connection (cur w))) (_id (cur w)) op 0 (srv w))
    as [[st|x] s1] eqn:Hp.
  - rewrite (executemany_prefix w op seq st s1 Hc Hp), executemany_loop_cur.
    split; reflexivity.
  - assert (E : exists w', executemany op seq w = (Raises (Foreign x), w')
                         /\ _frame (cur w') = None /\ _pos (cur w') = None).
    { open_world w. fields_in Hc. fields_in Hp. subst cl.
      eexists. split.
      - unfold executemany, bind at 1, self at 1. fields.
        unfold bind at 1, assign at 1. unfold bind at 1. fields.
        rewrite set_frame_None. fields.
        unfold bind at 1, self at 1. fields. unfold bind at 1.
        erewrite call_prepare_fails by exact Hp. reflexivity.
      - split; reflexivity. }
    destruct E as (w' & -> & Hfr & Hpos). split; assumption.
Qed.

(** C4, the path that misses the table.  [executemany] stores the signature
    returned by [prepare] in [_signature] and leaves [_data_types] as it
    was: the coercion table is not derived from the new signature. *)
Theorem executemany_keeps_data_types w op seq st s1 :
  let c := cur w in
  _closed c = false ->
  prepare (conn_id (_connection c)) (_id c) op 0 (srv w) = (Success st, s1) ->
  _signature (cur (snd (executemany op seq w))) = st_signature st
  /\ _data_types (cur (snd (executemany op seq w))) = _data_types c.
Proof.
  intros c Hc Hp. subst c.
  rewrite (executemany_prefix w op seq st s1 Hc Hp), executemany_loop_cur.
  split; reflexivity.
Qed.

(** The sibling path: [execute] installs signatures through
    [_set_signature], which derives the table anew. *)
Lemma set_signature_derives sg w :
  let w' := snd (_set_signature (PyExn:=PyExn) sg w) in
  _signature (cur w') = sg /\ _data_types (cur w') = data_types_of sg.
Proof. rewrite set_signature_eq. split; reflexivity. Qed.

(** ** The coercion table *)

Lemma data_types_from_cons i column rest :
  data_types_from i (column :: rest) =
  match data_type_of_class (columnClassName column) with
  | Some dt => (i, dt) :: data_types_from (S i) rest
  | None => data_types_from (S i) rest
  end.
Proof.
  simpl. unfold data_type_of_class.
  destruct (String.eqb (columnClassName column) "java.math.BigDecimal");
    [reflexivity|].
  destruct (String.eqb (columnClassName column) "java.lang.Float"
            || String.eqb (columnClassName column) "java.lang.Double");
    reflexivity.
Qed.

(** The table has an entry for column [j] exactly when the class of that
    column is [BigDecimal] (entry [Decimal]) or [Float] or [Double] (entry
    [float]). *)
Lemma entry_for_data_types_from cols :
  forall i j,
    entry_for j (data_types_from i cols) =
    if (i <=? j)%nat
    then match cols !! (j - i)%nat with
         | Some column => data_type_of_class (columnClassName column)
         | None => None
         end
    else None.
Proof.
  induction cols as [|column rest IH]; intros i j.
  - simpl. destruct (i <=? j)%nat; reflexivity.
  - rewrite data_types_from_cons.
    destruct (Nat.leb_spec i j) as [Hij|Hij].
    + destruct (Nat.eq_dec i j) as [->|Hne].
      * rewrite Nat.sub_diag. simpl.
        destruct (data_type_of_class (columnClassName column)) as [dt|].
        -- simpl. rewrite Nat.eqb_refl. reflexivity.
        -- rewrite IH. destruct (Nat.leb_spec (S j) j); [lia | reflexivity].
      * replace (j - i)%nat with (S (j - S i)) by lia. simpl.
        destruct (data_type_of_class (columnClassName column)) as [dt|].
        -- simpl. destruct (Nat.eqb_spec i j); [contradiction|].
           rewrite IH. destruct (Nat.leb_spec (S i) j); [reflexivity | lia].
        -- rewrite IH. destruct (Nat.leb_spec (S i) j); [reflexivity | lia].
    + destruct (data_type_of_class (columnClassName column)) as [dt|].
      * simpl. destruct (Nat.eqb_spec i j); [lia|].
        rewrite IH. destruct (Nat.leb_spec (S i) j); [lia | reflexivity].
      * rewrite IH. destruct (Nat.leb_spec (S i) j); [lia | reflexivity].
Qed.

Lemma data_types_from_bound cols :
  forall i j dt, (j, dt) ∈ data_types_from i cols -> (i <= j)%nat.
Proof.
  induction cols as [|column rest IH]; intros i j dt Hin.
  - apply elem_of_nil in Hin. contradiction.
  - rewrite data_types_from_cons in Hin.
    destruct (data_type_of_class (columnClassName column)).
    + apply elem_of_cons in Hin. destruct Hin as [Heq | Hin].
      * injection Heq as -> _. lia.
      * apply IH in Hin. lia.
    + apply IH in Hin. lia.
Qed.

(** No column has two entries. *)
Lemma data_types_from_NoDup cols :
  forall i, NoDup (data_types_from i cols).*1.
Proof.
  induction cols as [|column rest IH]; intros i; [constructor|].
  rewrite data_types_from_cons.
  destruct (data_type_of_class (columnClassName column)); [|apply IH].
  simpl. constructor; [|apply IH].
  intros Hin. apply list_elem_of_fmap in Hin.
  destruct Hin as ([j dt] & Hj & Hin). simpl in Hj. subst j.
  apply data_types_from_bound in Hin. lia.
Qed.

Lemma entry_for_absent j (dts : list (nat * data_type)) :
  j ∉ dts.*1 -> entry_for j dts = None.
Proof.
  induction dts as [|[i dt] rest IH]; intros Hnot; [reflexivity|].
  simpl in *. apply not_elem_of_cons in Hnot. destruct Hnot as [Hne Hnot].
  destruct (Nat.eqb_spec i j); [congruence|]. apply IH. exact Hnot.
Qed.

(** The loop of lines 201-204, when it ends without an exception: a column
    with a table entry holds the result of one application of its callable
    to the buffered value, unless that value is [None], which stays; every
    other column holds the buffered value. *)
Lemma coerce_spec (dts : list (nat * data_type)) :
  NoDup dts.*1 ->
  forall row row',
    coerce dts row = (Returns tt, row') ->
    forall j, row' !! j = coerced_value (entry_for j dts) (row !! j).
Proof.
  induction dts as [|[i dt] rest IH]; intros Hnd row row' Hrun j.
  - simpl in Hrun. injection Hrun as <-. simpl. destruct (row !! j); reflexivity.
  - simpl in Hnd. apply NoDup_cons in Hnd. destruct Hnd as [Hi Hnd].
    simpl in Hrun. simpl entry_for.
    destruct (row !! i) as [[v|]|] eqn:Hrow; [| |discriminate Hrun].
    + destruct (apply_data_type dt v) as [v'|x] eqn:Happ; [|discriminate Hrun].
      rewrite (IH Hnd _ _ Hrun j). unfold Row, Value in *.
      destruct (Nat.eqb_spec i j) as [<-|Hne].
      * rewrite (entry_for_absent i rest Hi).
        rewrite list_lookup_insert_eq by (apply lookup_lt_Some in Hrow; exact Hrow).
        rewrite Hrow. simpl. rewrite Happ. reflexivity.
      * rewrite list_lookup_insert_ne by exact Hne. reflexivity.
    + rewrite (IH Hnd _ _ Hrun j). unfold Row, Value in *.
      destruct (Nat.eqb_spec i j) as [<-|Hne]; [|reflexivity].
      rewrite (entry_for_absent i rest Hi), Hrow. reflexivity.
Qed.

(** The two together, for the table [_set_signature] derives. *)
Lemma coerce_by_column_class sg row row' :
  coerce (data_types_of (Some sg)) row = (Returns tt, row') ->
  forall j,
    row' !! j =
    coerced_value
      (match columns sg !! j with
       | Some column => data_type_of_class (columnClassName column)
       | None => None
       end)
      (row !! j).
Proof.
  intros Hrun j. unfold data_types_of in Hrun.
  rewrite (coerce_spec _ (data_types_from_NoDup (columns sg) 0) _ _ Hrun j).
  rewrite entry_for_data_types_from. simpl. rewrite Nat.sub_0_r. reflexivity.
Qed.

(** ** [fetchmany] against [fetchall] *)

Lemma fetchmany_eq size w :
  fetchmany size w = fetchmany_loop (Z.to_nat (effective_size size (cur w))) [] w.
Proof. reflexivity. Qed.

Lemma fetchmany_loop_step n acc w :
  fetchmany_loop (S n) acc w =
  match fetchone w with
  | (Returns (Some r), w') => fetchmany_loop n (acc ++ [r]) w'
  | (Returns None, w') => (Returns acc, w')
  | (Raises e, w') => (Raises e, w')
  end.
Proof.
  simpl. unfold bind. destruct (fetchone w) as [[[r|]|e] w']; reflexivity.
Qed.

(** One [fetchmany] loop of [m] iterations, seen from a [fetchall] loop
    that starts in the same world: either the loop stopped where
    [fetchall] stops, or it read [m] rows and [fetchall] goes on from there
    with [m] iterations less. *)
Lemma fetchmany_loop_inside_fetchall m :
  forall k acc b w r,
    fetchall_loop k (acc ++ b) w = Some r ->
    match fetchmany_loop m b w with
    | (Raises e, w') => r = (Raises e, w')
    | (Returns batch, w') =>
        ((length batch < length b + m)%nat /\ r = (Returns (acc ++ batch), w'))
        \/ (length batch = (length b + m)%nat
            /\ exists k', (k' + m)%nat = k
                          /\ fetchall_loop k' (acc ++ batch) w' = Some r)
    end.
Proof.
  induction m as [|m IH]; intros k acc b w r Hall.
  - simpl. right. split; [lia|]. exists k. split; [lia | exact Hall].
  - destruct k as [|k]; [discriminate Hall|].
    rewrite fetchmany_loop_step. simpl in Hall.
    destruct (fetchone w) as [[[x|]|e] w1].
    + rewrite <- app_assoc in Hall.
      specialize (IH k acc (b ++ [x]) w1 r Hall).
      destruct (fetchmany_loop m (b ++ [x]) w1) as [[batch|e] w'];
        [|exact IH].
      rewrite length_app in IH. simpl in IH.
      destruct IH as [[Hlen Hr] | [Hlen (k' & Hk & Hrest)]].
      * left. split; [lia | exact Hr].
      * right. split; [lia|]. exists k'. split; [lia | exact Hrest].
    + left. split; [lia|]. congruence.
    + congruence.
Qed.

(** The other way round: what a [fetchmany] loop did, [fetchall] does. *)
Lemma fetchall_runs_fetchmany_loop m :
  forall b w,
    match fetchmany_loop m b w with
    | (Raises e, w') =>
        forall acc, exists k, fetchall_loop k (acc ++ b) w = Some (Raises e, w')
    | (Returns batch, w') =>
        ((length batch < length b + m)%nat
         /\ forall acc, exists k,
              fetchall_loop k (acc ++ b) w = Some (Returns (acc ++ batch), w'))
        \/ (length batch = (length b + m)%nat
            /\ forall acc k r,
                 fetchall_loop k (acc ++ batch) w' = Some r ->
                 exists k2, fetchall_loop k2 (acc ++ b) w = Some r)
    end.
Proof.
  induction m as [|m IH]; intros b w.
  - simpl. right. split; [lia|]. intros acc k r H. exists k. exact H.
  - rewrite fetchmany_loop_step.
    destruct (fetchone w) as [[[x|]|e] w1] eqn:Hone.
    + specialize (IH (b ++ [x]) w1).
      destruct (fetchmany_loop m (b ++ [x]) w1) as [[batch|e] w'].
      * rewrite length_app in IH. simpl in IH.
        destruct IH as [[Hlen Hall] | [Hlen Hall]].
        -- left. split; [lia|]. intros acc.
           destruct (Hall acc) as (k & Hk). exists (S k). simpl.
           rewrite Hone, <- app_assoc. exact Hk.
        -- right. split; [lia|]. intros acc k r Hk.
           destruct (Hall acc k r Hk) as (k2 & Hk2). exists (S k2). simpl.
           rewrite Hone, <- app_assoc. exact Hk2.
      * intros acc. destruct (IH acc) as (k & Hk). exists (S k). simpl.
        rewrite Hone, <- app_assoc. exact Hk.
    + left. split; [lia|]. intros acc. exists 1%nat. simpl.
      rewrite Hone. reflexivity.
    + intros acc. exists 1%nat. simpl. rewrite Hone. reflexivity.
Qed.

Lemma fetchall_to_fetchmany n (Hn : 0 < n) :
  forall k acc w r,
    fetchall_loop k acc w = Some r ->
    exists k', fetchmany_until_short k' n acc w = Some r.
Proof.
  induction k as [k IH] using lt_wf_ind. intros acc w r Hall.
  pose proof (fetchmany_loop_inside_fetchall (Z.to_nat n) k acc [] w r) as H.
  rewrite app_nil_r in H. specialize (H Hall).
  destruct (fetchmany_loop (Z.to_nat n) [] w) as [[batch|e] w'] eqn:Hmany.
  - simpl in H. destruct H as [[Hlen ->] | [Hlen (k' & Hk & Hrest)]].
    + exists 1%nat. simpl. rewrite fetchmany_eq. simpl. rewrite Hmany.
      destruct (Z.ltb_spec (Z.of_nat (length batch)) n); [reflexivity | lia].
    + destruct (IH k' ltac:(lia) (acc ++ batch) w' r Hrest) as (k2 & Hk2).
      exists (S k2). simpl. rewrite fetchmany_eq. simpl. rewrite Hmany.
      destruct (Z.ltb_spec (Z.of_nat (length batch)) n); [lia | exact Hk2].
  - subst r. exists 1%nat. simpl. rewrite fetchmany_eq. simpl. rewrite Hmany.
    reflexivity.
Qed.

Lemma fetchmany_to_fetchall n (Hn : 0 < n) :
  forall k acc w r,
    fetchmany_until_short k n acc w = Some r ->
    exists k', fetchall_loop k' acc w = Some r.
Proof.
  induction k as [|k IH]; intros acc w r Hd; [discriminate Hd|].
  simpl in Hd. rewrite fetchmany_eq in Hd. simpl in Hd.
  pose proof (fetchall_runs_fetchmany_loop (Z.to_nat n) [] w) as H.
  destruct (fetchmany_loop (Z.to_nat n) [] w) as [[batch|e] w'].
  - simpl in H. destruct H as [[Hlen Hall] | [Hlen Hall]].
    + destruct (Z.ltb_spec (Z.of_nat (length batch)) n); [|lia].
      destruct (Hall acc) as (k' & Hk'). exists k'.
      rewrite app_nil_r in Hk'. congruence.
    + destruct (Z.ltb_spec (Z.of_nat (length batch)) n); [lia|].
      destruct (IH _ _ _ Hd) as (k1 & Hk1).
      destruct (Hall acc k1 r Hk1) as (k2 & Hk2). exists k2.
      rewrite app_nil_r in Hk2. exact Hk2.
  - destruct (H acc) as (k' & Hk'). exists k'.
    rewrite app_nil_r in Hk'. congruence.
Qed.

(** C9.  For a positive [n] and any world (the cursor after any executed
    query): [fetchall] ends with a result (the list of rows or an
    exception, and the world it leaves) exactly when the caller that
    concatenates successive [fetchmany(n)] calls up to the first short one
    ends, and then with the same result: the same rows in the same
    order. *)
Theorem fetchmany_partition n w r :
  0 < n ->
  (exists fuel, fetchall fuel w = Some r)
  <-> (exists fuel, fetchmany_until_short fuel n [] w = Some r).
Proof.
  intros Hn. unfold fetchall. split; intros (fuel & H).
  - exact (fetchall_to_fetchmany n Hn fuel [] w r H).
  - exact (fetchmany_to_fetchall n Hn fuel [] w r H).
Qed.

(** ** Pagination *)

Lemma page_offsets_app (l1 l2 : list (Request Obj)) :
  page_offsets (l1 ++ l2) = page_offsets l1 ++ page_offsets l2.
Proof.
  induction l1 as [|rq l1 IH]; [reflexivity|]. simpl.
  destruct rq as [| | |conn id ps [o|] m]; simpl; rewrite ?IH; reflexivity.
Qed.

Lemma StronglySorted_snoc (l : list Z) (x : Z) :
  StronglySorted Z.lt l -> Forall (fun o => o < x) l ->
  StronglySorted Z.lt (l ++ [x]).
Proof.
  induction 1 as [|a l Hl IH Ha]; intros Hx; simpl.
  - constructor; constructor.
  - apply Forall_cons_1 in Hx. destruct Hx as [Hax Hx].
    constructor; [apply IH; exact Hx|].
    apply Forall_app. split; [exact Ha|]. constructor; [exact Hax | constructor].
Qed.

Lemma paging_refl w : paging w w.
Proof.
  exists []. rewrite app_nil_r. simpl.
  split; [reflexivity|]. split; [constructor|]. split; [constructor|].
  split; [reflexivity|]. split; [intros; constructor|].
  right. intros fr Hfr. split; [constructor|].
  intros fr0 Hfr0. rewrite Hfr in Hfr0. injection Hfr0 as ->. lia.
Qed.

(** One [fetchone] keeps the requests in order. *)
Lemma paging_fetchone w0 w :
  frames_follow_requests -> paging w0 w -> paging w0 (snd (fetchone w)).
Proof.
  intros Hfollow Hinv.
  destruct (fetchone_cases w) as [-> | (fr & p & row & Hfr & Hpos & Hrow)];
    [exact Hinv|].
  rewrite (fetchone_world w fr p row Hfr Hpos Hrow).
  destruct Hinv as (new & Hsent & Hreq & Hsorted & Hsame & Hfirst & Hnow).
  destruct Hnow as [Hnone | Hnow]; [congruence|].
  destruct (Hnow fr Hfr) as [Hle Hfr0].
  assert (Hlen : (0 < length (rows fr))%nat)
    by (apply lookup_lt_Some in Hrow; lia).
  injection Hsame as Hconn Hid Hiter.
  assert (Hpage : page_request (cur w0) (next_page_request (cur w) fr)).
  { unfold page_request, next_page_request. rewrite Hconn, Hid, Hiter. eauto. }
  assert (Hoffs : page_offsets (new ++ [next_page_request (cur w) fr])
                  = page_offsets new
                    ++ [offset fr + Z.of_nat (length (rows fr))])
    by (rewrite page_offsets_app; reflexivity).
  assert (Hsorted' : StronglySorted Z.lt
            (page_offsets new ++ [offset fr + Z.of_nat (length (rows fr))])).
  { apply StronglySorted_snoc; [exact Hsorted|].
    eapply Forall_impl; [exact Hle|]. simpl. intros o Ho. lia. }
  assert (Hfirst' : forall fr0, _frame (cur w0) = Some fr0 ->
            Forall (fun o => offset fr0 < o)
              (page_offsets new ++ [offset fr + Z.of_nat (length (rows fr))])).
  { intros fr0 H0. apply Forall_app. split; [apply Hfirst; exact H0|].
    constructor; [|constructor]. specialize (Hfr0 fr0 H0). lia. }
  destruct ((length (rows fr) <=? S p)%nat && negb (done fr)).
  - destruct (fetch (conn_id (_connection (cur w))) (_id (cur w)) None
                (Some (offset fr + Z.of_nat (length (rows fr))))
                (itersize (cur w)) (srv w)) as [[fr2|x] s2] eqn:Hf.
    + specialize (Hfollow _ _ _ _ _ _ _ Hf).
      exists (new ++ [next_page_request (cur w) fr]). cbn [cur srv sent].
      rewrite Hsent, <- app_assoc, Hoffs.
      split; [reflexivity|]. split; [apply Forall_app; split; auto|].
      split; [exact Hsorted'|]. split; [project; congruence|].
      split; [exact Hfirst'|].
      right. project. intros fr' Hfr'. injection Hfr' as <-.
      split.
      * apply Forall_app. split.
        -- eapply Forall_impl; [exact Hle|]. simpl. intros o Ho. lia.
        -- constructor; [lia | constructor].
      * intros fr0 H0. specialize (Hfr0 fr0 H0). lia.
    + exists (new ++ [next_page_request (cur w) fr]). cbn [cur srv sent].
      rewrite Hsent, <- app_assoc, Hoffs.
      split; [reflexivity|]. split; [apply Forall_app; split; auto|].
      split; [exact Hsorted'|]. split; [project; congruence|].
      split; [exact Hfirst'|]. left. reflexivity.
  - exists new. cbn [cur srv sent].
    split; [exact Hsent|]. split; [exact Hreq|]. split; [exact Hsorted|].
    split; [project; congruence|]. split; [exact Hfirst|].
    right. project. intros fr' Hfr'. injection Hfr' as <-. simpl.
    split; [exact Hle | exact Hfr0].
Qed.

Lemma paging_fetchmany_loop n :
  frames_follow_requests ->
  forall acc w0 w, paging w0 w -> paging w0 (snd (fetchmany_loop n acc w)).
Proof.
  intros Hfollow. induction n as [|n IH]; intros acc w0 w Hinv; [exact Hinv|].
  rewrite fetchmany_loop_step.
  pose proof (paging_fetchone w0 w Hfollow Hinv) as Hone.
  destruct (fetchone w) as [[[r|]|e] w1]; simpl in Hone.
  - apply IH. exact Hone.
  - exact Hone.
  - exact Hone.
Qed.

Lemma paging_fetchall_loop fuel :
  frames_follow_requests ->
  forall acc w0 w r w',
    paging w0 w -> fetchall_loop fuel acc w = Some (r, w') -> paging w0 w'.
Proof.
  intros Hfollow. induction fuel as [|k IH]; intros acc w0 w r w' Hinv Hall;
    [discriminate Hall|].
  simpl in Hall.
  pose proof (paging_fetchone w0 w Hfollow Hinv) as Hone.
  destruct (fetchone w) as [[[x|]|e] w1]; simpl in Hone.
  - eapply IH; [exact Hone | exact Hall].
  - injection Hall as _ <-. exact Hone.
  - injection Hall as _ <-. exact Hone.
Qed.

Lemma paging_steps w0 w w' :
  frames_follow_requests ->
  paging w0 w -> rtc fetch_step w w' -> paging w0 w'.
Proof.
  intros Hfollow Hinv Hsteps. induction Hsteps as [w | w w1 w2 Hstep _ IH];
    [exact Hinv|].
  apply IH. destruct Hstep as [w | size w | fuel w r w' Hall].
  - apply paging_fetchone; assumption.
  - rewrite fetchmany_eq. apply paging_fetchmany_loop; assumption.
  - eapply paging_fetchall_loop; eassumption.
Qed.

(** C8.  When the row read by [fetchone] is the last of a frame that is not
    done, the one request sent is a [fetch] at the frame's offset plus its
    number of rows, bounded by [itersize].  Hence, with a client that
    answers a page request with a frame at (or after) the offset asked for,
    whatever fetch operations a caller runs, the requests sent are page
    requests of the cursor's statement whose offsets strictly increase, all
    beyond the offset of the frame the caller started from. *)
Theorem pagination_order :
  (forall w fr p row,
     _frame (cur w) = Some fr -> _pos (cur w) = Some p ->
     rows fr !! p = Some row ->
     (length (rows fr) <= S p)%nat -> done fr = false ->
     sent (snd (fetchone w)) =
     sent w ++ [ReqFetch (conn_id (_connection (cur w))) (_id (cur w)) None
                         (Some (offset fr + Z.of_nat (length (rows fr))))
                         (itersize (cur w))])
  /\ (frames_follow_requests ->
      forall w w',
        rtc fetch_step w w' ->
        exists new,
          sent w' = sent w ++ new
          /\ Forall (page_request (cur w)) new
          /\ StronglySorted Z.lt (page_offsets new)
          /\ forall fr, _frame (cur w) = Some fr ->
               Forall (fun o => offset fr < o) (page_offsets new)).
Proof.
  split.
  - intros w fr p row Hfr Hpos Hrow Hlast Hdone.
    rewrite (fetchone_world w fr p row Hfr Hpos Hrow).
    apply Nat.leb_le in Hlast. rewrite Hlast, Hdone. cbn [negb andb].
    destruct (fetch (conn_id (_connection (cur w))) (_id (cur w)) None
                (Some (offset fr + Z.of_nat (length (rows fr))))
                (itersize (cur w)) (srv w)) as [[fr2|x] s2]; reflexivity.
  - intros Hfollow w w' Hsteps.
    destruct (paging_steps w w w' Hfollow (paging_refl w) Hsteps)
      as (new & Hsent & Hreq & Hsorted & _ & Hfirst & _).
    exists new. auto.
Qed.

(** * More of the cursor *)

(** ** [__exit__] and [__del__] *)

(** X2.  When the connection is already closed, or the cursor is, [__del__]
    does nothing at all: no request is sent, and a handle the cursor holds
    is not released. *)
Theorem del_leaves_closed_connection_alone w :
  conn_closed (_connection (cur w)) = true \/ _closed (cur w) = true ->
  __del__ w = (Returns tt, w)
  /\ sent (snd (__del__ w)) = sent w
  /\ _id (cur (snd (__del__ w))) = _id (cur w).
Proof.
  intros H. rewrite (del_noop w H). repeat split.
Qed.

(** ** [execute], the remaining paths *)

(** X3.  [execute] without parameters, when the client returns a non-empty
    list: only the first result counts.  Its handle is adopted (and another
    handle held before released) only when the result says the statement is
    the cursor's own; its signature and the table derived from it are
    installed; its first frame, possibly none, replaces the buffer; and its
    update count is adopted unless installing the frame raised. *)
Theorem execute_without_parameters w op result rest s1 :
  let c := cur w in
  let conn := conn_id (_connection c) in
  let old := if ownStatement result then stale (_id c) (statementId result) else None in
  let o := match firstFrame result with
           | None => Returns tt
           | Some fr => frame_outcome fr
           end in
  _closed c = false ->
  prepareAndExecute conn (_id c) op (itersize c) (srv w) = (Success (result :: rest), s1) ->
  execute op None w =
  (o,
   {| cur := {| _connection := _connection c;
                _id := if ownStatement result then Some (statementId result) else _id c;
                _signature := signature result;
                _data_types := data_types_of (signature result);
                _frame := firstFrame result;
                _pos := match firstFrame result with
                        | None => None
                        | Some fr => first_pos fr
                        end;
                _closed := false;
                arraysize := arraysize c;
                itersize := itersize c;
                _updatecount := match o with
                                | Returns _ => updateCount result
                                | Raises _ => -1
                                end |};
      srv := released conn old s1;
      sent := sent w ++ [ReqPrepareAndExecute conn (_id c) op (itersize c)]
                     ++ release conn old |}).
Proof.
  intros c conn old o Hc Hp. exact (execute_first_result w op result rest s1 Hc Hp).
Qed.

(** The world [execute] leaves when its first request fails. *)
Lemma execute_first_failure w op ps x s1 :
  _closed (cur w) = false ->
  first_request_fails w op ps x s1 ->
  exists rq,
    rq = match ps with
         | None => ReqPrepareAndExecute (conn_id (_connection (cur w)))
                     (_id (cur w)) op (itersize (cur w))
         | Some _ => ReqPrepare (conn_id (_connection (cur w)))
                     (_id (cur w)) op (itersize (cur w))
         end
    /\ execute op ps w =
       (Raises (Foreign x),
        {| cur := with_updatecount (-1) (cur w); srv := s1;
           sent := sent w ++ [rq] |}).
Proof.
  intros Hc Hfail. unfold first_request_fails in Hfail.
  eexists. split; [reflexivity|].
  open_world w. fields_in Hc. subst cl.
  destruct ps as [ps|]; fields_in Hfail.
  - unfold execute, bind at 1, self at 1. fields.
    unfold bind at 1, assign at 1. unfold bind at 1. fields.
    erewrite call_prepare_fails by exact Hfail. reflexivity.
  - unfold execute, bind at 1, self at 1. fields.
    unfold bind at 1, assign at 1. unfold bind at 1. fields.
    erewrite call_prepareAndExecute_fails by exact Hfail. reflexivity.
Qed.

(** X4.  When the first request of [execute] fails, the error of the client
    comes out unchanged and the cursor is the one before the call with the
    update count reset to [-1]: the frame and the position of the earlier
    result are still there, and so are the handle, the signature and the
    table. *)
Theorem execute_first_request_fails w op ps x s1 :
  _closed (cur w) = false ->
  first_request_fails w op ps x s1 ->
  exists rq,
    rq = match ps with
         | None => ReqPrepareAndExecute (conn_id (_connection (cur w)))
                     (_id (cur w)) op (itersize (cur w))
         | Some _ => ReqPrepare (conn_id (_connection (cur w)))
                     (_id (cur w)) op (itersize (cur w))
         end
    /\ execute op ps w =
       (Raises (Foreign x),
        {| cur := with_updatecount (-1) (cur w); srv := s1;
           sent := sent w ++ [rq] |}).
Proof.
  intros Hc Hfail. exact (execute_first_failure w op ps x s1 Hc Hfail).
Qed.

(** [execute] with parameters up to its [fetch]. *)
Lemma execute_parameters_prefix w op ps st s1 :
  let c := cur w in
  let conn := conn_id (_connection c) in
  _closed c = false ->
  prepare conn (_id c) op (itersize c) (srv w) = (Success st, s1) ->
  execute op (Some ps) w =
  bind (call_fetch conn (Some (st_id st)) (Some ps) None (itersize c))
       (fun frame => _set_frame (Some frame))
    {| cur := {| _connection := _connection c;
                 _id := Some (st_id st);
                 _signature := st_signature st;
                 _data_types := data_types_of (st_signature st);
                 _frame := _frame c;
                 _pos := _pos c;
                 _closed := false;
                 arraysize := arraysize c;
                 itersize := itersize c;
                 _updatecount := -1 |};
       srv := released conn (stale (_id c) (st_id st)) s1;
       sent := sent w ++ [ReqPrepare conn (_id c) op (itersize c)]
                      ++ release conn (stale (_id c) (st_id st)) |}.
Proof.
  intros c conn Hc Hp. subst c conn. open_world w.
  fields_in Hc. fields_in Hp. subst cl.
  unfold execute, bind at 1, self at 1. fields.
  unfold bind at 1, assign at 1. unfold bind at 1. fields.
  erewrite call_prepare_ok by exact Hp. fields.
  unfold bind at 1. rewrite set_id_eq. fields.
  unfold bind at 1. rewrite set_signature_eq. fields.
  unfold bind at 1, self at 1. fields.
  rewrite <- app_assoc. reflexivity.
Qed.

(** The world [execute] leaves when the [fetch] after [prepare] fails. *)
Lemma execute_fetch_failure w op ps st s1 x s2 :
  let c := cur w in
  let conn := conn_id (_connection c) in
  _closed c = false ->
  prepare conn (_id c) op (itersize c) (srv w) = (Success st, s1) ->
  fetch conn (Some (st_id st)) (Some ps) None (itersize c)
        (released conn (stale (_id c) (st_id st)) s1) = (Failure x, s2) ->
  execute op (Some ps) w =
  (Raises (Foreign x),
   {| cur := {| _connection := _connection c;
                _id := Some (st_id st);
                _signature := st_signature st;
                _data_types := data_types_of (st_signature st);
                _frame := _frame c;
                _pos := _pos c;
                _closed := false;
                arraysize := arraysize c;
                itersize := itersize c;
                _updatecount := -1 |};
      srv := s2;
      sent := sent w ++ [ReqPrepare conn (_id c) op (itersize c)]
                     ++ release conn (stale (_id c) (st_id st))
                     ++ [ReqFetch conn (Some (st_id st)) (Some ps) None (itersize c)] |}).
Proof.
  intros c conn Hc Hp Hf. subst c conn.
  rewrite (execute_parameters_prefix w op ps st s1 Hc Hp).
  unfold bind at 1. erewrite call_fetch_fails by exact Hf.
  cbn [cur srv sent]. rewrite <- !app_assoc. reflexivity.
Qed.

(** X5.  [execute] with parameters, when [prepare] succeeds and the [fetch]
    after it fails: the error comes out unchanged, and the cursor is left
    with the new handle, the new signature and the new coercion table but
    the frame and the position of the earlier result. *)
Theorem execute_fetch_fails_after_prepare w op ps st s1 x s2 :
  let c := cur w in
  let conn := conn_id (_connection c) in
  _closed c = false ->
  prepare conn (_id c) op (itersize c) (srv w) = (Success st, s1) ->
  fetch conn (Some (st_id st)) (Some ps) None (itersize c)
        (released conn (stale (_id c) (st_id st)) s1) = (Failure x, s2) ->
  execute op (Some ps) w =
  (Raises (Foreign x),
   {| cur := {| _connection := _connection c;
                _id := Some (st_id st);
                _signature := st_signature st;
                _data_types := data_types_of (st_signature st);
                _frame := _frame c;
                _pos := _pos c;
                _closed := false;
                arraysize := arraysize c;
                itersize := itersize c;
                _updatecount := -1 |};
      srv := s2;
      sent := sent w ++ [ReqPrepare conn (_id c) op (itersize c)]
                     ++ release conn (stale (_id c) (st_id st))
                     ++ [ReqFetch conn (Some (st_id st)) (Some ps) None (itersize c)] |}).
Proof.
  intros c conn Hc Hp Hf.
  exact (execute_fetch_failure w op ps st s1 x s2 Hc Hp Hf).
Qed.

(** ** [executemany], the edges *)

(** X6.  [executemany] with an empty sequence is no no-op: the statement is
    prepared (and another handle held before released), the new handle and
    signature are installed, the update count is reset and the buffered
    frame is dropped; no [fetch] is sent. *)
Theorem executemany_empty_sequence w op st s1 :
  let c := cur w in
  let conn := conn_id (_connection c) in
  _closed c = false ->
  prepare conn (_id c) op 0 (srv w) = (Success st, s1) ->
  executemany op [] w =
  (Returns tt,
   {| cur := {| _connection := _connection c;
                _id := Some (st_id st);
                _signature := st_signature st;
                _data_types := _data_types c;
                _frame := None;
                _pos := None;
                _closed := false;
                arraysize := arraysize c;
                itersize := itersize c;
                _updatecount := -1 |};
      srv := released conn (stale (_id c) (st_id st)) s1;
      sent := sent w ++ [ReqPrepare conn (_id c) op 0]
                     ++ release conn (stale (_id c) (st_id st)) |}).
Proof.
  intros c conn Hc Hp. subst c conn.
  rewrite (executemany_prefix w op [] st s1 Hc Hp). reflexivity.
Qed.

(** The loop of [executemany] sends its requests in the order of the
    sequence and stops at the first that fails. *)
Lemma executemany_loop_prefix seq :
  forall w,
    exists k,
      (k <= length seq)%nat
      /\ sent (snd (executemany_loop seq w))
         = sent w ++ take k (batch_requests (conn_id (_connection (cur w)))
                                            (_id (cur w)) seq)
      /\ match fst (executemany_loop seq w) with
         | Returns _ => k = length seq
         | Raises e => (0 < k)%nat /\ exists x, e = Foreign x
         end.
Proof.
  induction seq as [|ps rest IH]; intros w.
  - exists 0%nat. simpl. rewrite app_nil_r. repeat split. lia.
  - rewrite executemany_loop_step.
    destruct (fetch (conn_id (_connection (cur w))) (_id (cur w)) (Some ps) None 0
                (srv w)) as [[fr|x] s1] eqn:Hf.
    + erewrite call_fetch_ok by exact Hf.
      match goal with
      | |- context [executemany_loop rest ?w0] =>
          destruct (IH w0) as (k & Hk & Hsent & Hout)
      end.
      exists (S k). cbn [cur srv sent] in *. split; [simpl; lia|].
      split.
      * rewrite Hsent, <- app_assoc. reflexivity.
      * destruct (fst (executemany_loop rest _)).
        -- simpl. lia.
        -- split; [lia | exact (proj2 Hout)].
    + erewrite call_fetch_fails by exact Hf.
      exists 1%nat. cbn [cur srv sent fst snd]. split; [simpl; lia|].
      split; [reflexivity|]. split; [lia | eauto].
Qed.

(** The loop of [executemany] by its outcome: when it returns, every
    request of the sequence was sent; when it raises, the parameter sets
    split at the one whose [fetch] failed, those before it went through,
    and nothing was sent after it. *)
Lemma executemany_loop_outcome seq :
  forall w,
    let conn := conn_id (_connection (cur w)) in
    match fst (executemany_loop seq w) with
    | Returns _ =>
        sent (snd (executemany_loop seq w))
        = sent w ++ batch_requests conn (_id (cur w)) seq
    | Raises e =>
        exists pre ps post x,
          seq = pre ++ ps :: post
          /\ fst (executemany_loop pre w) = Returns tt
          /\ fetch conn (_id (cur w)) (Some ps) None 0
               (srv (snd (executemany_loop pre w)))
             = (Failure x, srv (snd (executemany_loop seq w)))
          /\ e = Foreign x
          /\ sent (snd (executemany_loop seq w))
             = sent w ++ batch_requests conn (_id (cur w)) (pre ++ [ps])
    end.
Proof.
  induction seq as [|ps rest IH]; intros w conn; subst conn.
  - simpl. unfold batch_requests. simpl. rewrite app_nil_r. reflexivity.
  - rewrite executemany_loop_step.
    destruct (fetch (conn_id (_connection (cur w))) (_id (cur w)) (Some ps) None 0
                (srv w)) as [[fr|x] s1] eqn:Hf.
    + erewrite call_fetch_ok by exact Hf.
      set (w0 := {| cur := cur w; srv := s1;
                    sent := sent w ++ [ReqFetch (conn_id (_connection (cur w)))
                                         (_id (cur w)) (Some ps) None 0] |}).
      specialize (IH w0). cbv zeta in IH.
      change (cur w0) with (cur w) in IH.
      destruct (fst (executemany_loop rest w0)) as [[]|e].
      * rewrite IH. unfold w0, batch_requests. cbn [sent map].
        rewrite <- app_assoc. reflexivity.
      * destruct IH as (pre & ps' & post & x & Hseq & Hpre & Hfail & He & Hsent).
        exists (ps :: pre), ps', post, x.
        assert (Hstep : executemany_loop (ps :: pre) w = executemany_loop pre w0).
        { rewrite executemany_loop_step.
          erewrite call_fetch_ok by exact Hf. reflexivity. }
        rewrite Hstep.
        split; [rewrite Hseq; reflexivity|].
        split; [exact Hpre|]. split; [exact Hfail|]. split; [exact He|].
        rewrite Hsent. unfold w0, batch_requests. cbn [sent map app].
        rewrite <- app_assoc. reflexivity.
    + erewrite call_fetch_fails by exact Hf. cbn [fst snd srv sent].
      exists [], ps, rest, x.
      split; [reflexivity|]. split; [reflexivity|].
      split; [exact Hf|]. split; reflexivity.
Qed.

(** X7.  [executemany] sends the [fetch] requests in the order of the
    parameter sets, none twice and none skipped, and stops at the first one
    that fails.  When the call returns, the requests of the whole sequence
    were sent after the [prepare].  When it raises after the [prepare], the
    sequence splits at a parameter set whose [fetch] failed: the sets
    before it were executed ([executemany] on them alone returns), the
    exception is the error of the client for that set, its request is the
    last one sent, and nothing is sent for the sets after it. *)
Theorem executemany_stops_at_first_failure w op seq st s1 :
  let c := cur w in
  let conn := conn_id (_connection c) in
  let before := sent w ++ [ReqPrepare conn (_id c) op 0]
                       ++ release conn (stale (_id c) (st_id st)) in
  _closed c = false ->
  prepare conn (_id c) op 0 (srv w) = (Success st, s1) ->
  match fst (executemany op seq w) with
  | Returns _ =>
      sent (snd (executemany op seq w))
      = before ++ batch_requests conn (Some (st_id st)) seq
  | Raises e =>
      exists pre ps post x,
        seq = pre ++ ps :: post
        /\ fst (executemany op pre w) = Returns tt
        /\ fetch conn (Some (st_id st)) (Some ps) None 0
             (srv (snd (executemany op pre w)))
           = (Failure x, srv (snd (executemany op seq w)))
        /\ e = Foreign x
        /\ sent (snd (executemany op seq w))
           = before ++ batch_requests conn (Some (st_id st)) (pre ++ [ps])
  end.
Proof.
  intros c conn before Hc Hp. subst c conn before.
  rewrite (executemany_prefix w op seq st s1 Hc Hp).
  match goal with
  | |- context [executemany_loop seq ?w0] =>
      pose proof (executemany_loop_outcome seq w0) as Hloop
  end.
  cbv zeta in Hloop. cbn [cur srv sent _connection _id] in Hloop.
  destruct (fst (executemany_loop seq _)) as [[]|e].
  - rewrite Hloop, <- !app_assoc. reflexivity.
  - destruct Hloop as (pre & ps & post & x & Hseq & Hpre & Hfail & He & Hsent).
    exists pre, ps, post, x.
    rewrite (executemany_prefix w op pre st s1 Hc Hp).
    split; [exact Hseq|]. split; [exact Hpre|]. split; [exact Hfail|].
    split; [exact He|]. rewrite Hsent, <- !app_assoc. reflexivity.
Qed.

(** ** The end of the results *)

Lemma read_outcome_not_None (dts : list (nat * data_type)) row :
  read_outcome dts row <> Returns None.
Proof.
  unfold read_outcome. destruct (coerce dts row) as [[[]|e] row']; discriminate.
Qed.

(** [fetchone] returns [None] only at a cursor with a frame and no position,
    and then it changes nothing. *)
Lemma fetchone_None_inv w w' :
  fetchone w = (Returns None, w') ->
  w' = w /\ _pos (cur w) = None /\ _frame (cur w) <> None.
Proof.
  intros H.
  destruct (_frame (cur w)) as [fr|] eqn:Hfr.
  - destruct (_pos (cur w)) as [p|] eqn:Hpos.
    + destruct (rows fr !! p) as [row|] eqn:Hrow.
      * pose proof (fetchone_outcome w fr p row Hfr Hpos Hrow) as Hout.
        rewrite H in Hout. cbn [fst] in Hout. exfalso.
        destruct ((length (rows fr) <=? S p)%nat && negb (done fr)).
        -- destruct (fetch _ _ _ _ _ _) as [[fr2|x] s2]; [|discriminate Hout].
           destruct (frame_outcome fr2); [|discriminate Hout].
           symmetry in Hout. exact (read_outcome_not_None _ _ Hout).
        -- symmetry in Hout. exact (read_outcome_not_None _ _ Hout).
      * unfold fetchone, bind, self in H. rewrite Hfr, Hpos, Hrow in H.
        discriminate H.
    + unfold fetchone, bind, self in H. rewrite Hfr, Hpos in H.
      injection H as <-. repeat split. discriminate.
  - rewrite (fetchone_no_frame w Hfr) in H. discriminate H.
Qed.

Lemma fetchone_at_end w :
  _frame (cur w) <> None -> _pos (cur w) = None ->
  fetchone w = (Returns None, w).
Proof.
  intros Hfr Hpos. unfold fetchone, bind, self.
  destruct (_frame (cur w)); [|contradiction]. rewrite Hpos. reflexivity.
Qed.

(** X8.  The end of the results is stable: once [fetchone] has returned
    [None] it has changed nothing, and from there [fetchone] returns [None]
    again, [fetchall] and [fetchmany] return the empty list and [next]
    raises [StopIteration], all without a request to the client. *)
Theorem end_of_results_is_stable w w' :
  fetchone w = (Returns None, w') ->
  w' = w
  /\ (forall fuel, fetchall (S fuel) w = Some (Returns [], w))
  /\ (forall size, fetchmany size w = (Returns [], w))
  /\ exists e, next w = (Raises e, w) /\ is_StopIteration e = true.
Proof.
  intros H. destruct (fetchone_None_inv w w' H) as (-> & Hpos & Hfr).
  split; [reflexivity|]. split; [|split].
  - intros fuel. unfold fetchall. simpl. rewrite H. reflexivity.
  - intros size. rewrite fetchmany_eq.
    destruct (Z.to_nat (effective_size size (cur w))) as [|n]; [reflexivity|].
    rewrite fetchmany_loop_step, H. reflexivity.
  - eexists. unfold next, bind. rewrite H. split; reflexivity.
Qed.

Lemma fetchall_loop_ends_at_end fuel :
  forall acc w rs w',
    fetchall_loop fuel acc w = Some (Returns rs, w') ->
    fetchone w' = (Returns None, w').
Proof.
  induction fuel as [|k IH]; intros acc w rs w' H; [discriminate H|].
  simpl in H. destruct (fetchone w) as [[[r|]|e] w1] eqn:Hone.
  - exact (IH _ _ _ _ H).
  - injection H as _ <-.
    destruct (fetchone_None_inv w w1 Hone) as (-> & _ & _). exact Hone.
  - discriminate H.
Qed.

(** X9.  When [fetchall] returns, the cursor is at the end of the results:
    a [fetchone] after it returns [None], and a second [fetchall] returns
    the empty list and leaves the cursor as it is. *)
Theorem fetchall_leaves_cursor_at_end fuel w rs w' :
  fetchall fuel w = Some (Returns rs, w') ->
  fetchone w' = (Returns None, w')
  /\ forall fuel', fetchall (S fuel') w' = Some (Returns [], w').
Proof.
  intros H. unfold fetchall in H.
  pose proof (fetchall_loop_ends_at_end fuel [] w rs w' H) as Hend.
  split; [exact Hend|]. intros fuel'. unfold fetchall. simpl.
  rewrite Hend. reflexivity.
Qed.

(** ** [fetchmany], the bounds *)

Lemma fetchmany_loop_length n :
  forall acc w rs w',
    fetchmany_loop n acc w = (Returns rs, w') ->
    (length acc <= length rs <= length acc + n)%nat
    /\ ((length rs < length acc + n)%nat -> fetchone w' = (Returns None, w')).
Proof.
  induction n as [|n IH]; intros acc w rs w' H.
  - simpl in H. injection H as <- <-. split; lia.
  - rewrite fetchmany_loop_step in H.
    destruct (fetchone w) as [[[r|]|e] w1] eqn:Hone.
    + destruct (IH _ _ _ _ H) as [Hlen Hend].
      rewrite length_app in Hlen, Hend. simpl in Hlen, Hend.
      split; [lia|]. intros Hlt. apply Hend. lia.
    + injection H as <- <-. split; [lia|]. intros _.
      destruct (fetchone_None_inv w w1 Hone) as (-> & _ & _). exact Hone.
    + discriminate H.
Qed.

(** X10.  [fetchmany] never returns more rows than asked for, and with a
    size that is not positive it returns the empty list at once, whatever
    the state of the cursor: it does not look at the frame, so it raises
    nothing even when no query was executed. *)
Theorem fetchmany_bounds size w :
  let n := effective_size size (cur w) in
  (n <= 0 -> fetchmany size w = (Returns [], w))
  /\ (forall rs w', fetchmany size w = (Returns rs, w') ->
        Z.of_nat (length rs) <= Z.max 0 n).
Proof.
  intros n. subst n. split.
  - intros Hn. rewrite fetchmany_eq.
    replace (Z.to_nat (effective_size size (cur w))) with 0%nat by lia.
    reflexivity.
  - intros rs w' H. rewrite fetchmany_eq in H.
    destruct (fetchmany_loop_length _ _ _ _ _ H) as [Hlen _].
    simpl in Hlen. lia.
Qed.

(** X11.  A short batch means the end: when [fetchmany] returns fewer rows
    than asked for, the cursor is at the end of the results, so the next
    [fetchone] returns [None]. *)
Theorem fetchmany_short_means_end size w rs w' :
  fetchmany size w = (Returns rs, w') ->
  Z.of_nat (length rs) < effective_size size (cur w) ->
  fetchone w' = (Returns None, w').
Proof.
  intros H Hshort. rewrite fetchmany_eq in H.
  destruct (fetchmany_loop_length _ _ _ _ _ H) as [_ Hend].
  apply Hend. simpl. lia.
Qed.

(** ** What the fetch operations leave alone *)

Lemma only_buffer_changes_refl w : only_buffer_changes w w.
Proof.
  exists []. rewrite app_nil_r. split; [reflexivity|].
  split; [constructor | reflexivity].
Qed.

Lemma only_buffer_changes_trans w1 w2 w3 :
  only_buffer_changes w1 w2 -> only_buffer_changes w2 w3 ->
  only_buffer_changes w1 w3.
Proof.
  intros (n1 & Hs1 & Hr1 & He1) (n2 & Hs2 & Hr2 & He2).
  exists (n1 ++ n2). split; [rewrite Hs2, Hs1, app_assoc; reflexivity|].
  split.
  - apply Forall_app. split; [exact Hr1|].
    eapply Forall_impl; [exact Hr2|]. simpl. intros rq (o & ->).
    injection He1 as Hconn Hid _ _ _ _ Hiter _.
    exists o. rewrite Hconn, Hid, Hiter. reflexivity.
  - rewrite He2. exact He1.
Qed.

Lemma only_buffer_changes_fetchone w :
  only_buffer_changes w (snd (fetchone w)).
Proof.
  destruct (fetchone_cases w) as [-> | (fr & p & row & Hfr & Hpos & Hrow)];
    [apply only_buffer_changes_refl|].
  rewrite (fetchone_world w fr p row Hfr Hpos Hrow).
  assert (Hpage : page_request (cur w) (next_page_request (cur w) fr))
    by (unfold page_request, next_page_request; eauto).
  destruct ((length (rows fr) <=? S p)%nat && negb (done fr)).
  - destruct (fetch _ _ _ _ _ _) as [[fr2|x] s2];
      exists [next_page_request (cur w) fr]; cbn [cur srv sent];
      (split; [reflexivity|]); (split; [repeat constructor; exact Hpage|]);
      reflexivity.
  - exists []. cbn [cur srv sent]. rewrite app_nil_r.
    split; [reflexivity|]. split; [constructor | reflexivity].
Qed.

Lemma only_buffer_changes_fetchmany_loop n :
  forall acc w, only_buffer_changes w (snd (fetchmany_loop n acc w)).
Proof.
  induction n as [|n IH]; intros acc w; [apply only_buffer_changes_refl|].
  rewrite fetchmany_loop_step.
  pose proof (only_buffer_changes_fetchone w) as Hone.
  destruct (fetchone w) as [[[r|]|e] w1]; simpl in Hone; [|exact Hone..].
  eapply only_buffer_changes_trans; [exact Hone | apply IH].
Qed.

Lemma only_buffer_changes_fetchall_loop fuel :
  forall acc w r w',
    fetchall_loop fuel acc w = Some (r, w') -> only_buffer_changes w w'.
Proof.
  induction fuel as [|k IH]; intros acc w r w' H; [discriminate H|].
  simpl in H. pose proof (only_buffer_changes_fetchone w) as Hone.
  destruct (fetchone w) as [[[x|]|e] w1]; simpl in Hone.
  - eapply only_buffer_changes_trans; [exact Hone | eapply IH; exact H].
  - injection H as _ <-. exact Hone.
  - injection H as _ <-. exact Hone.
Qed.

Lemma only_buffer_changes_step w w' :
  fetch_step w w' -> only_buffer_changes w w'.
Proof.
  intros [w0 | size w0 | fuel w0 r w1 Hall].
  - apply only_buffer_changes_fetchone.
  - rewrite fetchmany_eq. apply only_buffer_changes_fetchmany_loop.
  - eapply only_buffer_changes_fetchall_loop. exact Hall.
Qed.

(** X12.  Fetch operations touch nothing but the buffer: after any number of
    [fetchone], [fetchmany] and [fetchall] calls the handle, the signature,
    the coercion table, the closed flag, the update count, the connection
    and the two sizes are what they were, and the only requests sent are
    page requests for the cursor's statement, never a [prepare] or a
    [closeStatement]. *)
Theorem fetch_changes_only_the_buffer w w' :
  rtc fetch_step w w' -> only_buffer_changes w w'.
Proof.
  induction 1 as [w | w w1 w2 Hstep _ IH]; [apply only_buffer_changes_refl|].
  eapply only_buffer_changes_trans; [|exact IH].
  apply only_buffer_changes_step. exact Hstep.
Qed.

(** ** [rownumber] *)

(** X13.  While a row is ready, [rownumber] is the offset of the frame plus
    the position, and reading the row moves it on by one: within the frame,
    and also across a page boundary when the client answers with a
    non-empty frame at the offset asked for; after the last row of the last
    frame it is [None]. *)
Theorem rownumber_advances w fr p row :
  _frame (cur w) = Some fr -> _pos (cur w) = Some p ->
  rows fr !! p = Some row ->
  let w' := snd (fetchone w) in
  rownumber (cur w) = Some (offset fr + Z.of_nat p)
  /\ if (S p <? length (rows fr))%nat
     then rownumber (cur w') = Some (offset fr + Z.of_nat p + 1)
     else if done fr then rownumber (cur w') = None
     else forall fr2 s2,
       fetch (conn_id (_connection (cur w))) (_id (cur w)) None
             (Some (offset fr + Z.of_nat (length (rows fr))))
             (itersize (cur w)) (srv w) = (Success fr2, s2) ->
       rows fr2 <> [] ->
       offset fr2 = offset fr + Z.of_nat (length (rows fr)) ->
       rownumber (cur w') = Some (offset fr + Z.of_nat p + 1).
Proof.
  intros Hfr Hpos Hrow w'. subst w'.
  split; [unfold rownumber; rewrite Hfr, Hpos; reflexivity|].
  rewrite (fetchone_world w fr p row Hfr Hpos Hrow).
  pose proof (lookup_lt_Some _ _ _ Hrow) as Hlt.
  destruct (Nat.ltb_spec (S p) (length (rows fr))) as [Hin | Hlast].
  - destruct (Nat.leb_spec (length (rows fr)) (S p)); [lia|].
    cbn [andb]. unfold rownumber. project. cbn [offset]. f_equal. lia.
  - destruct (Nat.leb_spec (length (rows fr)) (S p)); [|lia].
    destruct (done fr); cbn [negb andb].
    + unfold rownumber. project. reflexivity.
    + intros fr2 s2 Hf Hrows Hoff. rewrite Hf.
      unfold rownumber, first_pos. project.
      destruct (rows fr2); [contradiction|]. rewrite Hoff. f_equal. lia.
Qed.

(** ** Errors while a row is read *)

(** X14.  A row whose coercion raises is never returned, and the cursor
    does not come back to it: [fetchone] has moved the position past the
    row, and after the last row of a frame that is not done has asked for
    the next page, before the coercion runs.  Inside a frame, and at the
    end of a frame that is done, the exception of the coercion comes out
    and the position is the next row, or [None].  After the last row of a
    frame that is not done the next frame is installed first: what comes
    out is the error of the client when the page request fails, the
    exception of [_set_frame] when the new frame is empty and not done,
    and the exception of the coercion otherwise, with the cursor at the
    start of the new frame. *)
Theorem coercion_failure_skips_row w fr p row e row' :
  _frame (cur w) = Some fr -> _pos (cur w) = Some p ->
  rows fr !! p = Some row ->
  coerce (_data_types (cur w)) row = (Raises e, row') ->
  let w' := snd (fetchone w) in
  (exists e', fst (fetchone w) = Raises e')
  /\ if (S p <? length (rows fr))%nat
     then fst (fetchone w) = Raises e /\ _pos (cur w') = Some (S p)
     else if done fr
     then fst (fetchone w) = Raises e /\ _pos (cur w') = None
     else
       match fetch (conn_id (_connection (cur w))) (_id (cur w)) None
                   (Some (offset fr + Z.of_nat (length (rows fr))))
                   (itersize (cur w)) (srv w) with
       | (Success fr2, _) =>
           fst (fetchone w) = match frame_outcome fr2 with
                              | Returns _ => Raises e
                              | Raises e2 => Raises e2
                              end
           /\ _frame (cur w') = Some fr2
           /\ _pos (cur w') = first_pos fr2
       | (Failure x, _) =>
           fst (fetchone w) = Raises (Foreign x)
           /\ _frame (cur w') = Some fr
           /\ _pos (cur w') = None
       end.
Proof.
  intros Hfr Hpos Hrow Hco w'. subst w'.
  rewrite (fetchone_outcome w fr p row Hfr Hpos Hrow).
  rewrite (fetchone_world w fr p row Hfr Hpos Hrow).
  unfold read_outcome. rewrite Hco.
  pose proof (lookup_lt_Some _ _ _ Hrow) as Hlt.
  destruct (Nat.ltb_spec (S p) (length (rows fr))) as [Hin | Hlast].
  - destruct (Nat.leb_spec (length (rows fr)) (S p)); [lia|].
    cbn [andb]. split; [eauto|]. split; reflexivity.
  - destruct (Nat.leb_spec (length (rows fr)) (S p)); [|lia].
    destruct (done fr); cbn [negb andb].
    + split; [eauto|]. split; reflexivity.
    + destruct (fetch (conn_id (_connection (cur w))) (_id (cur w)) None
                  (Some (offset fr + Z.of_nat (length (rows fr))))
                  (itersize (cur w)) (srv w)) as [[fr2|x] s2].
      * split; [destruct (frame_outcome fr2); eauto|].
        split; [reflexivity|]. split; reflexivity.
      * split; [eauto|]. split; [reflexivity|].
        split; [project; exact Hfr | reflexivity].
Qed.

(** X15.  When the request for the next page fails, [fetchone] raises the
    error of the client instead of returning the last row of the frame it
    had read, and the cursor is left at the end of the results: the next
    [fetchone] returns [None], it does not raise again and asks for
    nothing. *)
Theorem failed_page_fetch_ends_results w fr p row x s2 :
  let c := cur w in
  let w' := {| cur := with_pos None c; srv := s2;
               sent := sent w ++ [next_page_request c fr] |} in
  _frame c = Some fr -> _pos c = Some p -> rows fr !! p = Some row ->
  (length (rows fr) <= S p)%nat -> done fr = false ->
  fetch (conn_id (_connection c)) (_id c) None
        (Some (offset fr + Z.of_nat (length (rows fr)))) (itersize c) (srv w)
  = (Failure x, s2) ->
  fetchone w = (Raises (Foreign x), w')
  /\ fetchone w' = (Returns None, w').
Proof.
  intros c w' Hfr Hpos Hrow Hlast Hdone Hf. subst c w'. split.
  - rewrite (surjective_pairing (fetchone w)).
    rewrite (fetchone_outcome w fr p row Hfr Hpos Hrow).
    rewrite (fetchone_world w fr p row Hfr Hpos Hrow).
    apply Nat.leb_le in Hlast. rewrite Hlast, Hdone, Hf. reflexivity.
  - apply fetchone_at_end; project; [rewrite Hfr; discriminate | reflexivity].
Qed.

(** X16.  A row shorter than the signature is no silent pass: when the loop
    of [fetchone] ends without an exception, every column with a table entry
    exists in the row, and the row has kept its length. *)
Theorem coerce_needs_every_column (dts : list (nat * data_type)) :
  forall row row',
    coerce dts row = (Returns tt, row') ->
    length row' = length row
    /\ Forall (fun entry => (fst entry < length row)%nat) dts.
Proof.
  induction dts as [|[i dt] rest IH]; intros row row' H.
  - simpl in H. injection H as <-. split; [reflexivity | constructor].
  - simpl in H. destruct (row !! i) as [[v|]|] eqn:Hrow; [| |discriminate H].
    + destruct (apply_data_type dt v) as [v'|x]; [|discriminate H].
      destruct (IH _ _ H) as [Hlen Hall]. unfold Row, Value in *.
      rewrite length_insert in Hlen, Hall.
      split; [exact Hlen|].
      constructor; [exact (lookup_lt_Some _ _ _ Hrow) | exact Hall].
    + destruct (IH _ _ H) as [Hlen Hall]. split; [exact Hlen|].
      constructor; [exact (lookup_lt_Some _ _ _ Hrow) | exact Hall].
Qed.

(** X17.  What the coercion does to a row, by the class of each column of
    the signature: a value in a [BigDecimal] column is replaced by
    [Decimal] of it, a value in a [Float] or [Double] column by [float] of
    it, each applied once; [None] stays [None], and the values of all other
    columns are handed out as buffered. *)
Theorem coercion_by_column_class sg row row' :
  coerce (data_types_of (Some sg)) row = (Returns tt, row') ->
  forall j,
    row' !! j =
    match columns sg !! j, row !! j with
    | Some column, Some (Some v) =>
        match data_type_of_class (columnClassName column) with
        | Some dt =>
            match apply_data_type dt v with
            | Success v' => Some (Some v')
            | Failure _ => Some (Some v)
            end
        | None => Some (Some v)
        end
    | _, value => value
    end.
Proof.
  intros H j. etransitivity; [exact (coerce_by_column_class sg row row' H j)|].
  unfold coerced_value.
  destruct (columns sg !! j) as [column|]; [|destruct (row !! j) as [[v|]|]; reflexivity].
  destruct (data_type_of_class (columnClassName column)) as [dt|];
    destruct (row !! j) as [[v|]|]; reflexivity.
Qed.

(** ** What every use of the cursor keeps *)

Lemma execute_empty_list w op s1 :
  let c := cur w in
  _closed c = false ->
  prepareAndExecute (conn_id (_connection c)) (_id c) op (itersize c) (srv w)
  = (Success [], s1) ->
  execute op None w =
  (Returns tt,
   {| cur := with_updatecount (-1) c; srv := s1;
      sent := sent w ++ [ReqPrepareAndExecute (conn_id (_connection c)) (_id c)
                           op (itersize c)] |}).
Proof.
  intros c Hc Hp. subst c. open_world w. fields_in Hc. fields_in Hp. subst cl.
  unfold execute, bind at 1, self at 1. fields.
  unfold bind at 1, assign at 1. unfold bind at 1. fields.
  erewrite call_prepareAndExecute_ok by exact Hp. reflexivity.
Qed.

Lemma execute_fetch_success w op ps st s1 fr s2 :
  let c := cur w in
  let conn := conn_id (_connection c) in
  _closed c = false ->
  prepare conn (_id c) op (itersize c) (srv w) = (Success st, s1) ->
  fetch conn (Some (st_id st)) (Some ps) None (itersize c)
        (released conn (stale (_id c) (st_id st)) s1) = (Success fr, s2) ->
  snd (execute op (Some ps) w) =
  {| cur := {| _connection := _connection c;
               _id := Some (st_id st);
               _signature := st_signature st;
               _data_types := data_types_of (st_signature st);
               _frame := Some fr;
               _pos := first_pos fr;
               _closed := false;
               arraysize := arraysize c;
               itersize := itersize c;
               _updatecount := -1 |};
     srv := s2;
     sent := sent w ++ [ReqPrepare conn (_id c) op (itersize c)]
                    ++ release conn (stale (_id c) (st_id st))
                    ++ [ReqFetch conn (Some (st_id st)) (Some ps) None (itersize c)] |}.
Proof.
  intros c conn Hc Hp Hf. subst c conn.
  rewrite (execute_parameters_prefix w op ps st s1 Hc Hp).
  unfold bind at 1. erewrite call_fetch_ok by exact Hf.
  rewrite set_frame_Some. cbn [snd]. unfold installed. fields.
  rewrite <- !app_assoc. reflexivity.
Qed.

Lemma executemany_prepare_failure w op seq x s1 :
  let c := cur w in
  _closed c = false ->
  prepare (conn_id (_connection c)) (_id c) op 0 (srv w) = (Failure x, s1) ->
  executemany op seq w =
  (Raises (Foreign x),
   {| cur := with_pos None (with_frame None (with_updatecount (-1) c));
      srv := s1;
      sent := sent w ++ [ReqPrepare (conn_id (_connection c)) (_id c) op 0] |}).
Proof.
  intros c Hc Hp. subst c. open_world w. fields_in Hc. fields_in Hp. subst cl.
  unfold executemany, bind at 1, self at 1. fields.
  unfold bind at 1, assign at 1. unfold bind at 1. fields.
  rewrite set_frame_None. fields.
  unfold bind at 1, self at 1. fields. unfold bind at 1.
  erewrite call_prepare_fails by exact Hp. reflexivity.
Qed.

Lemma next_world w : snd (next w) = snd (fetchone w).
Proof.
  unfold next, bind. destruct (fetchone w) as [[[r|]|e] w']; reflexivity.
Qed.

(** *** The statement handle *)

Lemma handle_keep w w' (new : list (Request Obj)) :
  sent w' = sent w ++ new ->
  Forall (fun rq => is_close rq = false) new ->
  _connection (cur w') = _connection (cur w) ->
  _id (cur w') = _id (cur w) ->
  handle_discipline w w'.
Proof.
  intros Hsent Hnew Hconn Hid. exists new.
  split; [exact Hsent|]. split; [exact Hconn|]. split.
  - intros old Hold Hdrop. congruence.
  - intros conn h Hin. rewrite List.Forall_forall in Hnew.
    specialize (Hnew _ Hin). discriminate Hnew.
Qed.

Lemma handle_same w : handle_discipline w w.
Proof.
  apply (handle_keep w w []); auto. rewrite app_nil_r. reflexivity.
Qed.

Lemma release_stale_in conn (old : option StmtId) sid cn h :
  In (ReqCloseStatement (Obj:=Obj) cn h) (release conn (stale old sid)) ->
  cn = conn /\ old = Some h /\ h <> sid.
Proof.
  unfold release, stale. destruct old as [o|]; [|intros []].
  destruct (Z.eqb_spec o sid) as [->|Hne]; simpl; [intros []|].
  intros [Heq | []]. injection Heq as <- <-. auto.
Qed.

Lemma handle_adopt w w' (pre post : list (Request Obj)) sid :
  sent w' = sent w ++ pre
              ++ release (conn_id (_connection (cur w))) (stale (_id (cur w)) sid)
              ++ post ->
  Forall (fun rq => is_close rq = false) pre ->
  Forall (fun rq => is_close rq = false) post ->
  _connection (cur w') = _connection (cur w) ->
  _id (cur w') = Some sid ->
  handle_discipline w w'.
Proof.
  intros Hsent Hpre Hpost Hconn Hid. eexists.
  split; [exact Hsent|]. split; [exact Hconn|]. split.
  - intros old Hold Hdrop. rewrite Hid in Hdrop.
    apply in_or_app. right. apply in_or_app. left.
    rewrite Hold. unfold stale, release.
    destruct (Z.eqb_spec old sid) as [->|Hne]; [congruence|].
    simpl. left. reflexivity.
  - intros conn h Hin. rewrite List.Forall_forall in Hpre, Hpost.
    apply in_app_or in Hin. destruct Hin as [Hin | Hin];
      [specialize (Hpre _ Hin); discriminate Hpre|].
    apply in_app_or in Hin. destruct Hin as [Hin | Hin];
      [|specialize (Hpost _ Hin); discriminate Hpost].
    apply release_stale_in in Hin. destruct Hin as (-> & Hold & Hne).
    split; [reflexivity|]. split; [exact Hold|]. rewrite Hid. congruence.
Qed.

Lemma handle_close w w' :
  sent w' = sent w ++ release (conn_id (_connection (cur w))) (_id (cur w)) ->
  _connection (cur w') = _connection (cur w) ->
  _id (cur w') = None ->
  handle_discipline w w'.
Proof.
  intros Hsent Hconn Hid. eexists.
  split; [exact Hsent|]. split; [exact Hconn|]. split.
  - intros old Hold _. rewrite Hold. simpl. left. reflexivity.
  - intros conn h Hin. destruct (_id (cur w)) as [o|]; [|destruct Hin].
    destruct Hin as [Heq | []]. injection Heq as <- <-.
    split; [reflexivity|]. split; [reflexivity|]. rewrite Hid. discriminate.
Qed.

Lemma batch_requests_no_close conn id (seq : list (Params Obj)) :
  forall k,
    Forall (fun rq => is_close rq = false) (take k (batch_requests conn id seq)).
Proof.
  induction seq as [|ps rest IH]; intros [|k]; simpl; constructor;
    [reflexivity | apply IH].
Qed.

Lemma page_requests_no_close c (new : list (Request Obj)) :
  Forall (page_request c) new -> Forall (fun rq => is_close rq = false) new.
Proof.
  intros H. eapply Forall_impl; [exact H|]. simpl. intros rq (o & ->). reflexivity.
Qed.

Lemma handle_fetch w w' : only_buffer_changes w w' -> handle_discipline w w'.
Proof.
  intros (new & Hsent & Hreq & Heq).
  injection Heq as Hconn Hid _ _ _ _ _ _.
  apply (handle_keep w w' new); auto. apply page_requests_no_close with (cur w).
  exact Hreq.
Qed.

Lemma handle_close_method w : handle_discipline w (snd (close w)).
Proof.
  destruct (_closed (cur w)) eqn:Hc.
  - rewrite (close_closed w Hc). apply handle_same.
  - rewrite (close_open w Hc). apply handle_close; reflexivity.
Qed.

Lemma handle_execute op ps w : handle_discipline w (snd (execute op ps w)).
Proof.
  destruct (_closed (cur w)) eqn:Hc;
    [rewrite (execute_closed op ps w Hc); apply handle_same|].
  destruct ps as [ps|].
  - destruct (prepare (conn_id (_connection (cur w))) (_id (cur w)) op
                (itersize (cur w)) (srv w)) as [[st|x] s1] eqn:Hp.
    + destruct (fetch (conn_id (_connection (cur w))) (Some (st_id st)) (Some ps)
                  None (itersize (cur w))
                  (released (conn_id (_connection (cur w)))
                     (stale (_id (cur w)) (st_id st)) s1))
        as [[fr|x] s2] eqn:Hf.
      * rewrite (execute_fetch_success w op ps st s1 fr s2 Hc Hp Hf).
        eapply handle_adopt with (sid := st_id st);
          [reflexivity | repeat constructor | repeat constructor
          | reflexivity | reflexivity].
      * rewrite (execute_fetch_failure w op ps st s1 x s2 Hc Hp Hf).
        eapply handle_adopt with (sid := st_id st);
          [reflexivity | repeat constructor | repeat constructor
          | reflexivity | reflexivity].
    + destruct (execute_first_failure w op (Some ps) x s1 Hc Hp) as (rq & -> & ->).
      eapply handle_keep; [reflexivity | repeat constructor | reflexivity..].
  - destruct (prepareAndExecute (conn_id (_connection (cur w))) (_id (cur w)) op
                (itersize (cur w)) (srv w)) as [[[|result rest]|x] s1] eqn:Hp.
    + rewrite (execute_empty_list w op s1 Hc Hp).
      eapply handle_keep; [reflexivity | repeat constructor | reflexivity..].
    + rewrite (execute_first_result w op result rest s1 Hc Hp). cbn [snd].
      destruct (ownStatement result).
      * eapply handle_adopt with (sid := statementId result) (post := []);
          [cbn [sent]; rewrite app_nil_r; reflexivity | repeat constructor
          | constructor | reflexivity | reflexivity].
      * eapply handle_keep;
          [cbn [sent release]; rewrite app_nil_r; reflexivity
          | repeat constructor | reflexivity..].
    + destruct (execute_first_failure w op None x s1 Hc Hp) as (rq & -> & ->).
      eapply handle_keep; [reflexivity | repeat constructor | reflexivity..].
Qed.

Lemma handle_executemany op seq w :
  handle_discipline w (snd (executemany op seq w)).
Proof.
  destruct (_closed (cur w)) eqn:Hc;
    [rewrite (executemany_closed op seq w Hc); apply handle_same|].
  destruct (prepare (conn_id (_connection (cur w))) (_id (cur w)) op 0 (srv w))
    as [[st|x] s1] eqn:Hp.
  - rewrite (executemany_prefix w op seq st s1 Hc Hp).
    match goal with
    | |- context [executemany_loop seq ?w0] =>
        destruct (executemany_loop_prefix seq w0) as (k & _ & Hsent & _);
        pose proof (executemany_loop_cur seq w0) as Hcur
    end.
    cbn [cur srv sent _connection _id] in Hsent, Hcur.
    apply handle_adopt
      with (sid := st_id st)
           (pre := [ReqPrepare (conn_id (_connection (cur w))) (_id (cur w)) op 0])
           (post := take k (batch_requests (conn_id (_connection (cur w)))
                                           (Some (st_id st)) seq)).
    + rewrite Hsent, <- !app_assoc. reflexivity.
    + repeat constructor.
    + apply batch_requests_no_close.
    + rewrite Hcur. reflexivity.
    + rewrite Hcur. reflexivity.
  - rewrite (executemany_prepare_failure w op seq x s1 Hc Hp).
    eapply handle_keep; [reflexivity | repeat constructor | reflexivity..].
Qed.

Lemma exit_world w : snd (__exit__ w) = if _closed (cur w) then w else snd (close w).
Proof.
  unfold __exit__, bind, self, ret. destruct (_closed (cur w)); reflexivity.
Qed.

Lemma del_world w :
  snd (__del__ w) =
  if negb (conn_closed (_connection (cur w))) && negb (_closed (cur w))
  then snd (close w) else w.
Proof.
  rewrite del_guard.
  destruct (negb (conn_closed (_connection (cur w))) && negb (_closed (cur w)));
    reflexivity.
Qed.

(** X20.  The statement handle is never leaked and never released while
    held: in every use of the cursor (any method call, any write to
    [arraysize] or [itersize]), each [closeStatement] sent is for the handle
    the cursor held before, on the cursor's own connection, and that handle
    is not held afterwards; and a handle that was held and is no longer
    held has been released by a [closeStatement] in that same use. *)
Theorem handle_is_released_exactly_when_dropped w w' :
  method_step w w' -> handle_discipline w w'.
Proof.
  intros [op ps w0 | op seq w0 | w0 w1 Hfetch | w0 | w0 | w0 | w0 | w0 | w0
         | sizes w0 | size column w0 | v w0 | v w0].
  - apply handle_execute.
  - apply handle_executemany.
  - apply handle_fetch, only_buffer_changes_step. exact Hfetch.
  - rewrite next_world. apply handle_fetch, only_buffer_changes_fetchone.
  - apply handle_close_method.
  - apply handle_same.
  - rewrite exit_world. destruct (_closed (cur w0));
      [apply handle_same | apply handle_close_method].
  - rewrite del_world.
    destruct (negb (conn_closed (_connection (cur w0))) && negb (_closed (cur w0)));
      [apply handle_close_method | apply handle_same].
  - apply handle_same.
  - apply handle_same.
  - apply handle_same.
  - eapply handle_keep with (new := []);
      [cbn [sent]; rewrite app_nil_r; reflexivity | constructor | reflexivity..].
  - eapply handle_keep with (new := []);
      [cbn [sent]; rewrite app_nil_r; reflexivity | constructor | reflexivity..].
Qed.

(** *** The position and the closed flag *)

Lemma consistent_open_bounds c :
  _closed c = false -> pos_in_bounds c -> consistent c.
Proof.
  intros Hc Hb. split; [exact Hb|]. intros H. congruence.
Qed.

Lemma pos_in_bounds_first fr c :
  pos_in_bounds (with_pos (first_pos fr) (with_frame (Some fr) c)).
Proof.
  unfold pos_in_bounds, first_pos. project.
  destruct (rows fr) as [|r rs] eqn:E; [exact I|].
  exists fr. split; [reflexivity|]. rewrite E. simpl. lia.
Qed.

Lemma consistent_not_closed_with_frame c fr :
  consistent c -> _frame c = Some fr -> _closed c = false.
Proof.
  intros [_ Hcl] Hfr. destruct (_closed c) eqn:Hc; [|reflexivity].
  destruct (Hcl Hc) as (_ & _ & _ & Hnone & _). congruence.
Qed.

Lemma consistent_fetchone w :
  consistent (cur w) -> consistent (cur (snd (fetchone w))).
Proof.
  intros Hcons.
  destruct (fetchone_cases w) as [-> | (fr & p & row & Hfr & Hpos & Hrow)];
    [exact Hcons|].
  pose proof (consistent_not_closed_with_frame _ _ Hcons Hfr) as Hc.
  rewrite (fetchone_world w fr p row Hfr Hpos Hrow).
  destruct ((length (rows fr) <=? S p)%nat && negb (done fr)).
  - destruct (fetch _ _ _ _ _ _) as [[fr2|x] s2]; cbn [cur].
    + apply consistent_open_bounds; [exact Hc | apply pos_in_bounds_first].
    + apply consistent_open_bounds; [exact Hc | exact I].
  - cbn [cur]. apply consistent_open_bounds; [exact Hc|].
    unfold pos_in_bounds. project.
    destruct (Nat.leb_spec (length (rows fr)) (S p)); [exact I|].
    eexists. split; [reflexivity|]. cbn [rows]. unfold Row, Value in *.
    rewrite length_insert. lia.
Qed.

Lemma consistent_fetchmany_loop n :
  forall acc w,
    consistent (cur w) -> consistent (cur (snd (fetchmany_loop n acc w))).
Proof.
  induction n as [|n IH]; intros acc w Hcons; [exact Hcons|].
  rewrite fetchmany_loop_step.
  pose proof (consistent_fetchone w Hcons) as Hone.
  destruct (fetchone w) as [[[r|]|e] w1]; simpl in Hone; [|exact Hone..].
  apply IH. exact Hone.
Qed.

Lemma consistent_fetchall_loop fuel :
  forall acc w r w',
    consistent (cur w) -> fetchall_loop fuel acc w = Some (r, w') ->
    consistent (cur w').
Proof.
  induction fuel as [|k IH]; intros acc w r w' Hcons H; [discriminate H|].
  simpl in H. pose proof (consistent_fetchone w Hcons) as Hone.
  destruct (fetchone w) as [[[x|]|e] w1]; simpl in Hone.
  - eapply IH; [exact Hone | exact H].
  - injection H as _ <-. exact Hone.
  - injection H as _ <-. exact Hone.
Qed.

Lemma consistent_fetch_step w w' :
  fetch_step w w' -> consistent (cur w) -> consistent (cur w').
Proof.
  intros [w0 | size w0 | fuel w0 r w1 Hall] Hcons.
  - apply consistent_fetchone. exact Hcons.
  - rewrite fetchmany_eq. apply consistent_fetchmany_loop. exact Hcons.
  - eapply consistent_fetchall_loop; [exact Hcons | exact Hall].
Qed.

Lemma consistent_close w :
  consistent (cur w) -> consistent (cur (snd (close w))).
Proof.
  intros Hcons. destruct (_closed (cur w)) eqn:Hc.
  - rewrite (close_closed w Hc). exact Hcons.
  - rewrite (close_open w Hc). split; [exact I|]. intros _. repeat split.
Qed.

Lemma consistent_execute op ps w :
  consistent (cur w) -> consistent (cur (snd (execute op ps w))).
Proof.
  intros Hcons.
  destruct (_closed (cur w)) eqn:Hc;
    [rewrite (execute_closed op ps w Hc); exact Hcons|].
  assert (Hreset : consistent (with_updatecount (-1) (cur w))).
  { apply consistent_open_bounds; [exact Hc | exact (proj1 Hcons)]. }
  destruct ps as [ps|].
  - destruct (prepare (conn_id (_connection (cur w))) (_id (cur w)) op
                (itersize (cur w)) (srv w)) as [[st|x] s1] eqn:Hp.
    + destruct (fetch (conn_id (_connection (cur w))) (Some (st_id st)) (Some ps)
                  None (itersize (cur w))
                  (released (conn_id (_connection (cur w)))
                     (stale (_id (cur w)) (st_id st)) s1))
        as [[fr|x] s2] eqn:Hf.
      * rewrite (execute_fetch_success w op ps st s1 fr s2 Hc Hp Hf).
        apply consistent_open_bounds; [reflexivity|].
        unfold pos_in_bounds, first_pos. cbn [cur _pos _frame].
        destruct (rows fr) as [|r rs] eqn:E; [exact I|].
        exists fr. split; [reflexivity|]. rewrite E. simpl. lia.
      * rewrite (execute_fetch_failure w op ps st s1 x s2 Hc Hp Hf).
        apply consistent_open_bounds; [reflexivity | exact (proj1 Hcons)].
    + destruct (execute_first_failure w op (Some ps) x s1 Hc Hp) as (rq & -> & ->).
      exact Hreset.
  - destruct (prepareAndExecute (conn_id (_connection (cur w))) (_id (cur w)) op
                (itersize (cur w)) (srv w)) as [[[|result rest]|x] s1] eqn:Hp.
    + rewrite (execute_empty_list w op s1 Hc Hp). exact Hreset.
    + rewrite (execute_first_result w op result rest s1 Hc Hp).
      apply consistent_open_bounds; [reflexivity|].
      unfold pos_in_bounds, first_pos. cbn [snd cur _pos _frame].
      destruct (firstFrame result) as [fr|]; [|exact I].
      destruct (rows fr) as [|r rs] eqn:E; [exact I|].
      exists fr. split; [reflexivity|]. rewrite E. simpl. lia.
    + destruct (execute_first_failure w op None x s1 Hc Hp) as (rq & -> & ->).
      exact Hreset.
Qed.

Lemma consistent_executemany op seq w :
  consistent (cur w) -> consistent (cur (snd (executemany op seq w))).
Proof.
  intros Hcons.
  destruct (_closed (cur w)) eqn:Hc;
    [rewrite (executemany_closed op seq w Hc); exact Hcons|].
  destruct (prepare (conn_id (_connection (cur w))) (_id (cur w)) op 0 (srv w))
    as [[st|x] s1] eqn:Hp.
  - rewrite (executemany_prefix w op seq st s1 Hc Hp), executemany_loop_cur.
    apply consistent_open_bounds; [reflexivity | exact I].
  - rewrite (executemany_prepare_failure w op seq x s1 Hc Hp).
    apply consistent_open_bounds; [exact Hc | exact I].
Qed.

Lemma consistent_step w w' :
  method_step w w' -> consistent (cur w) -> consistent (cur w').
Proof.
  intros [op ps w0 | op seq w0 | w0 w1 Hfetch | w0 | w0 | w0 | w0 | w0 | w0
         | sizes w0 | size column w0 | v w0 | v w0] Hcons.
  - apply consistent_execute. exact Hcons.
  - apply consistent_executemany. exact Hcons.
  - eapply consistent_fetch_step; [exact Hfetch | exact Hcons].
  - rewrite next_world. apply consistent_fetchone. exact Hcons.
  - apply consistent_close. exact Hcons.
  - exact Hcons.
  - rewrite exit_world. destruct (_closed (cur w0));
      [exact Hcons | apply consistent_close; exact Hcons].
  - rewrite del_world.
    destruct (negb (conn_closed (_connection (cur w0))) && negb (_closed (cur w0)));
      [apply consistent_close; exact Hcons | exact Hcons].
  - exact Hcons.
  - exact Hcons.
  - exact Hcons.
  - exact Hcons.
  - exact Hcons.
Qed.

Lemma consistent_init connection id : consistent (__init__ (Obj:=Obj) connection id).
Proof. split; [exact I|]. intros H. discriminate H. Qed.

Lemma reachable_cursor_is_consistent_aux connection id s w :
  rtc method_step {| cur := __init__ connection id; srv := s; sent := [] |} w ->
  pos_in_bounds (cur w) /\ closed_is_empty (cur w).
Proof.
  intros Hreach.
  remember {| cur := __init__ connection id; srv := s; sent := [] |} as w0
    eqn:Hw0.
  assert (H0 : consistent (cur w0)) by (subst w0; apply consistent_init).
  clear Hw0. induction Hreach as [w | w w1 w2 Hstep _ IH]; [exact H0|].
  apply IH. eapply consistent_step; [exact Hstep | exact H0].
Qed.

(** X18.  In every state a cursor can reach from its construction, through
    any method calls and writes to [arraysize] and [itersize], a position
    that is set points at a row of the buffered frame, so [rows[self._pos]]
    in [fetchone] cannot fail; and a closed cursor holds no handle, no
    signature, no coercion table, no frame and no position. *)
Theorem reachable_cursor_is_consistent connection id s w :
  rtc method_step {| cur := __init__ connection id; srv := s; sent := [] |} w ->
  (forall p, _pos (cur w) = Some p ->
     exists fr row, _frame (cur w) = Some fr /\ rows fr !! p = Some row)
  /\ (_closed (cur w) = true ->
      _id (cur w) = None /\ _signature (cur w) = None
      /\ _data_types (cur w) = [] /\ _frame (cur w) = None
      /\ _pos (cur w) = None).
Proof.
  intros Hreach.
  destruct (reachable_cursor_is_consistent_aux connection id s w Hreach)
    as [Hb Hcl].
  split; [|exact Hcl].
  intros p Hpos. unfold pos_in_bounds in Hb. rewrite Hpos in Hb.
  destruct Hb as (fr & Hfr & Hlt). exists fr.
  destruct (lookup_lt_is_Some_2 (rows fr) p Hlt) as [row Hrow]. eauto.
Qed.

(** X19.  A closed cursor is silent and stays closed: in a state reached
    from the construction of the cursor in which the cursor is closed, no
    method call and no attribute write sends a request, changes the state of
    the client or opens the cursor again. *)
Theorem closed_cursor_is_silent connection id s w w' :
  rtc method_step {| cur := __init__ connection id; srv := s; sent := [] |} w ->
  _closed (cur w) = true ->
  method_step w w' ->
  sent w' = sent w /\ srv w' = srv w /\ _closed (cur w') = true.
Proof.
  intros Hreach Hc Hstep.
  destruct (reachable_cursor_is_consistent_aux connection id s w Hreach)
    as [_ Hcl].
  destruct (Hcl Hc) as (_ & _ & _ & Hfr & _).
  destruct Hstep as [op ps w0 | op seq w0 | w0 w1 Hfetch | w0 | w0 | w0 | w0
                    | w0 | w0 | sizes w0 | size column w0 | v w0 | v w0].
  - rewrite (execute_closed op ps w0 Hc). auto.
  - rewrite (executemany_closed op seq w0 Hc). auto.
  - destruct Hfetch as [w0 | size w0 | fuel w0 r w1 Hall].
    + rewrite (fetchone_no_frame w0 Hfr). auto.
    + rewrite (fetchmany_no_frame size w0 Hfr).
      destruct (0 <? effective_size size (cur w0)); auto.
    + destruct fuel as [|k]; [discriminate Hall|].
      rewrite (fetchall_no_frame k w0 Hfr) in Hall. injection Hall as _ <-. auto.
  - rewrite (next_no_frame w0 Hfr). auto.
  - rewrite (close_closed w0 Hc). auto.
  - auto.
  - rewrite exit_world, Hc. auto.
  - rewrite del_world, Hc, andb_false_r. auto.
  - auto.
  - auto.
  - auto.
  - auto.
  - auto.
Qed.

(** ** Iteration *)

Lemma coerce_raises (dts : list (nat * data_type)) :
  forall row e row',
    coerce dts row = (Raises e, row') ->
    e = IndexError \/ exists x, e = Foreign x.
Proof.
  induction dts as [|[i dt] rest IH]; intros row e row' H.
  - discriminate H.
  - simpl in H. destruct (row !! i) as [[v|]|].
    + destruct (apply_data_type dt v) as [v'|x].
      * exact (IH _ _ _ H).
      * injection H as <- _. right. eauto.
    + exact (IH _ _ _ H).
    + injection H as <- _. left. reflexivity.
Qed.

(** The exceptions [fetchone] can raise: none of them is [StopIteration]. *)
Lemma fetchone_never_StopIteration w e w' :
  fetchone w = (Raises e, w') -> is_StopIteration e = false.
Proof.
  intros H.
  destruct (_frame (cur w)) as [fr|] eqn:Hfr;
    [|rewrite (fetchone_no_frame w Hfr) in H; injection H as <- _; reflexivity].
  destruct (_pos (cur w)) as [p|] eqn:Hpos.
  - destruct (rows fr !! p) as [row|] eqn:Hrow.
    + pose proof (fetchone_outcome w fr p row Hfr Hpos Hrow) as Hout.
      rewrite H in Hout. cbn [fst] in Hout.
      assert (Hread : forall e0, read_outcome (_data_types (cur w)) row = Raises e0 ->
                                 is_StopIteration e0 = false).
      { intros e0 He0. unfold read_outcome in He0.
        destruct (coerce (_data_types (cur w)) row) as [[[]|e1] row1] eqn:Hco;
          [discriminate He0|].
        injection He0 as <-.
        destruct (coerce_raises _ _ _ _ Hco) as [-> | (x & ->)]; reflexivity. }
      destruct ((length (rows fr) <=? S p)%nat && negb (done fr)).
      * destruct (fetch _ _ _ _ _ _) as [[fr2|x] s2];
          [|injection Hout as ->; reflexivity].
        rewrite frame_outcome_cases in Hout.
        destruct (bool_decide (rows fr2 = []) && negb (done fr2)).
        -- injection Hout as ->. reflexivity.
        -- apply Hread. symmetry. exact Hout.
      * apply Hread. symmetry. exact Hout.
    + unfold fetchone, bind, self in H. rewrite Hfr, Hpos, Hrow in H.
      injection H as <- _. reflexivity.
  - unfold fetchone, bind, self in H. rewrite Hfr, Hpos in H. discriminate H.
Qed.

Lemma iterate_fetchall_loop fuel :
  forall acc w, iterate fuel acc w = fetchall_loop fuel acc w.
Proof.
  induction fuel as [|k IH]; intros acc w; [reflexivity|].
  simpl. unfold next, bind.
  destruct (fetchone w) as [[[r|]|e] w1] eqn:Hone.
  - apply IH.
  - reflexivity.
  - rewrite (fetchone_never_StopIteration w e w1 Hone). reflexivity.
Qed.

(** X21.  Iterating over the cursor is [fetchall]: calling [next] until it
    raises [StopIteration] and collecting the rows gives, for the same
    number of steps allowed, the same rows or the same exception, and
    leaves the same state, as the loop of [fetchall]. *)
Theorem iteration_is_fetchall fuel w :
  iterate fuel [] (snd (__iter__ (PyExn:=PyExn) w)) = fetchall fuel w.
Proof.
  unfold fetchall. unfold __iter__, self; cbn [snd]. apply iterate_fetchall_loop.
Qed.

(** ** A fresh cursor *)

(** X22.  A cursor that has executed nothing has no result: [fetchone],
    [fetchmany()] (whose default size is 1) and [fetchall] raise
    [ProgrammingError] and send nothing; the update count is [-1], and
    row number and description are [None].  Closing it releases the handle
    it was constructed with, if any. *)
Theorem fresh_cursor_has_no_result connection id s :
  let w := {| cur := __init__ connection id; srv := s; sent := [] |} in
  (exists e, fetchone w = (Raises e, w) /\ is_StateError e = true)
  /\ (exists e, fetchmany None w = (Raises e, w) /\ is_StateError e = true)
  /\ (forall fuel, exists e,
        fetchall (S fuel) w = Some (Raises e, w) /\ is_StateError e = true)
  /\ (rowcount (cur w), rownumber (cur w), description (cur w), closed (cur w))
     = (-1, None, None, false)
  /\ fst (close w) = Returns tt
  /\ sent (snd (close w))
     = match id with
       | Some h => [ReqCloseStatement (conn_id connection) h]
       | None => []
       end.
Proof.
  intros w. assert (Hfr : _frame (cur w) = None) by reflexivity.
  split; [|split; [|split; [|split; [|split]]]].
  - eexists. split; [apply fetchone_no_frame; exact Hfr | reflexivity].
  - eexists. rewrite (fetchmany_no_frame None w Hfr). split; reflexivity.
  - intros fuel. eexists.
    split; [apply fetchall_no_frame; exact Hfr | reflexivity].
  - reflexivity.
  - rewrite (close_open w eq_refl). reflexivity.
  - rewrite (close_open w eq_refl). destruct id; reflexivity.
Qed.

(** ** The whole result, page by page *)

Lemma fetchall_loop_step k acc w :
  fetchall_loop (S k) acc w =
  match fetchone w with
  | (Raises e, w') => Some (Raises e, w')
  | (Returns None, w') => Some (Returns acc, w')
  | (Returns (Some r), w') => fetchall_loop k (acc ++ [r]) w'
  end.
Proof. reflexivity. Qed.

Lemma page_of_nonempty (table : list (Row Obj)) o m :
  (0 < m)%nat -> (o < length table)%nat -> rows (page_of table o m) <> [].
Proof.
  intros Hm Ho Hnil. apply (f_equal length) in Hnil.
  cbn [page_of rows] in Hnil. rewrite length_take, length_drop in Hnil.
  simpl in Hnil. lia.
Qed.

Section WholeResult.

Variable table : list (Row Obj).
Variable good : ClientState -> Prop.
Variable m : nat.
Variable dts : list (nat * data_type).

Hypothesis Hserves : serves table good.
Hypothesis Hm : (0 < m)%nat.
Hypothesis Hcoerce : Forall (fun row => fst (coerce dts row) = Returns tt) table.

Lemma reading_first w :
  good (srv w) -> itersize (cur w) = Z.of_nat m -> _data_types (cur w) = dts ->
  _frame (cur w) = Some (page_of table 0 m) -> _pos (cur w) = Some 0%nat ->
  table <> [] ->
  reading table good m dts w 0 0.
Proof.
  intros Hg Hit Hd Hfr Hpos Hne. repeat split; try assumption.
  exists (page_of table 0 m). repeat split; try assumption; try reflexivity.
  cbn [page_of rows]. rewrite length_take, length_drop.
  destruct table; [contradiction|]. simpl. lia.
Qed.

Lemma drain_reading n :
  forall w o p acc,
    reading table good m dts w o p ->
    (length table - (o + p))%nat = n ->
    exists w',
      fetchall_loop (S n) acc w
      = Some (Returns (acc ++ map (coerced dts) (drop (o + p) table)), w')
      /\ _pos (cur w') = None.
Proof.
  induction n as [|n IH]; intros w o p acc
      (Hg & Hit & Hd & Hpos & fr & Hfr & Hoff & Hdone & Hlen & Hbuf & Hp) Hn.
  - exfalso. rewrite Hlen, length_take, length_drop in Hp. lia.
  - assert (Hlen' : length (rows fr) = Nat.min m (length table - o))
      by (rewrite Hlen, length_take, length_drop; reflexivity).
    assert (Hrow : exists row, rows fr !! p = Some row /\ table !! (o + p)%nat = Some row).
    { rewrite (Hbuf p (le_n p)), lookup_take_lt, lookup_drop by lia.
      destruct (lookup_lt_is_Some_2 table (o + p)) as [row Hrow]; [lia|]. eauto. }
    destruct Hrow as (row & Hrow & Htab).
    assert (Hco : read_outcome dts row = Returns (Some (coerced dts row))).
    { unfold read_outcome, coerced. rewrite List.Forall_forall in Hcoerce.
      assert (Hin : In row table) by (apply list_elem_of_In, list_elem_of_lookup; eauto).
      specialize (Hcoerce row Hin).
      destruct (coerce dts row) as [[[]|e] row']; [reflexivity | discriminate Hcoerce]. }
    assert (Hdrop : drop (o + p) table = row :: drop (S (o + p)) table)
      by (apply drop_S; exact Htab).
    rewrite Hdrop. cbn [map].
    pose proof (fetchone_outcome w fr p row Hfr Hpos Hrow) as Hout.
    pose proof (fetchone_world w fr p row Hfr Hpos Hrow) as Hw.
    cbv zeta in Hout, Hw. rewrite Hd, Hco in Hout.
    rewrite fetchall_loop_step.
    destruct (fetchone w) as [out w1]. cbn [fst snd] in Hout, Hw.
    destruct (Nat.leb_spec (length (rows fr)) (S p)) as [Hlast | Hmore].
    + destruct (done fr) eqn:Hd1; cbn [negb andb] in Hout, Hw.
      * (* the last row of the last page *)
        subst out w1. symmetry in Hdone. apply Nat.leb_le in Hdone.
        assert (Hend : drop (S (o + p)) table = []) by (apply drop_ge; lia).
        rewrite Hend. cbn [map].
        assert (n = 0)%nat by lia. subst n.
        eexists. rewrite fetchall_loop_step.
        rewrite fetchone_at_end by (project; first [discriminate | reflexivity]).
        split; [reflexivity | reflexivity].
      * (* the last row of a page that is not the last *)
        symmetry in Hdone. apply Nat.leb_gt in Hdone.
        assert (Hfull : length (rows fr) = m) by lia.
        rewrite Hoff, Hit, Hfull, <- Nat2Z.inj_add in Hout, Hw.
        destruct (Hserves (conn_id (_connection (cur w))) (_id (cur w))
                    (o + m)%nat m (srv w) Hg) as (s' & Hf & Hg').
        rewrite Hf in Hout, Hw.
        assert (Hne : rows (page_of table (o + m) m) <> [])
          by (apply page_of_nonempty; lia).
        rewrite frame_outcome_cases in Hout.
        rewrite (bool_decide_eq_false_2 _ Hne) in Hout. cbn [andb] in Hout.
        subst out.
        assert (Hread : reading table good m dts w1 (o + m) 0).
        { subst w1. unfold first_pos.
          destruct (rows (page_of table (o + m) m)) as [|r rs] eqn:E;
            [contradiction|].
          split; [exact Hg'|]. split; [exact Hit|]. split; [exact Hd|].
          split; [reflexivity|].
          exists (page_of table (o + m) m). project.
          split; [reflexivity|]. split; [reflexivity|]. split; [reflexivity|].
          split; [reflexivity|]. split; [reflexivity|].
          rewrite E. simpl. lia. }
        destruct (IH w1 (o + m)%nat 0%nat (acc ++ [coerced dts row]) Hread
                    ltac:(lia)) as (w' & Hrun & Hposend).
        exists w'. rewrite Hrun.
        replace (o + m + 0)%nat with (S (o + p)) by lia.
        rewrite <- app_assoc. split; [reflexivity | exact Hposend].
    + (* a row inside the page *)
      cbn [andb] in Hout, Hw. subst out.
      assert (Hread : reading table good m dts w1 o (S p)).
      { subst w1. split; [exact Hg|]. split; [exact Hit|]. split; [exact Hd|].
        split; [reflexivity|].
        eexists. project. split; [reflexivity|]. cbn [offset rows done].
        unfold Row, Value in *.
        rewrite length_insert.
        split; [exact Hoff|]. split; [exact Hdone|]. split; [exact Hlen|].
        split; [|lia].
        intros k Hk. rewrite list_lookup_insert_ne by lia. apply Hbuf. lia. }
      destruct (IH w1 o (S p) (acc ++ [coerced dts row]) Hread ltac:(lia))
        as (w' & Hrun & Hposend).
      exists w'. rewrite Hrun.
      replace (o + S p)%nat with (S (o + p)) by lia.
      rewrite <- app_assoc. split; [reflexivity | exact Hposend].
Qed.

End WholeResult.

(** X23.  With a client that serves a table honestly (the page for offset
    [o] and at most [m] rows is rows [o] to [o + m] of the table, marked
    done when it reaches the end), a cursor that holds the first page, with
    a positive [itersize], delivers the whole table: [fetchall] returns
    every row of the table exactly once and in order, each coerced by the
    cursor's table, whatever the page size, and leaves the cursor at the
    end of the results. *)
Theorem fetchall_returns_the_whole_table table good m w :
  serves table good ->
  good (srv w) ->
  (0 < m)%nat ->
  itersize (cur w) = Z.of_nat m ->
  Forall (fun row => fst (coerce (_data_types (cur w)) row) = Returns tt) table ->
  _frame (cur w) = Some (page_of table 0 m) ->
  _pos (cur w) = first_pos (page_of table 0 m) ->
  exists w',
    fetchall (S (length table)) w
    = Some (Returns (map (coerced (_data_types (cur w))) table), w')
    /\ _pos (cur w') = None.
Proof.
  intros Hserves Hg Hm Hit Hco Hfr Hpos.
  destruct table as [|row0 rest] eqn:Htab.
  - exists w. unfold fetchall. rewrite fetchall_loop_step.
    assert (Hnone : _pos (cur w) = None).
    { rewrite Hpos. unfold first_pos, page_of. cbn [rows].
      rewrite drop_nil, take_nil. reflexivity. }
    rewrite fetchone_at_end by (rewrite ?Hfr; first [discriminate | exact Hnone]).
    split; [reflexivity | exact Hnone].
  - rewrite <- Htab in *.
    assert (Hne : table <> []) by (rewrite Htab; discriminate).
    assert (Hpos0 : _pos (cur w) = Some 0%nat).
    { rewrite Hpos. unfold first_pos.
      destruct (rows (page_of table 0 m)) eqn:E; [|reflexivity].
      exfalso. revert E. apply page_of_nonempty; [exact Hm|].
      rewrite Htab. simpl. lia. }
    pose proof (reading_first table good m (_data_types (cur w)) Hserves Hm
                  Hco w Hg Hit eq_refl Hfr Hpos0 Hne) as Hread.
    destruct (drain_reading table good m (_data_types (cur w)) Hserves Hm Hco
                (length table) w 0%nat 0%nat [] Hread ltac:(simpl; lia))
      as (w' & Hrun & Hend).
    exists w'. unfold fetchall. rewrite Hrun. split; [reflexivity | exact Hend].
Qed.

End Properties.

(** * Releasing the handle when [closeStatement] can raise *)

Section Closing.

Context {Obj PyExn ClientState : Type}.
Context {closer : Fallible.Closer PyExn ClientState}.

Implicit Types (w : World Obj ClientState) (e : Exn PyExn).

Lemma fallible_close_closed w :
  _closed (cur w) = true ->
  Fallible.close w
  = (Raises (Raised "ProgrammingError" "the cursor is already closed"), w).
Proof.
  intros H. unfold Fallible.close, bind, self. rewrite H. reflexivity.
Qed.

(** [close] on an open cursor: the assignments of lines 92-97 are reached
    only when [closeStatement] has returned. *)
Lemma fallible_close_open w :
  _closed (cur w) = false ->
  Fallible.close w =
  match _id (cur w) with
  | None =>
      (Returns tt,
       {| cur := closed_cursor (cur w); srv := srv w; sent := sent w |})
  | Some h =>
      let rq := ReqCloseStatement (conn_id (_connection (cur w))) h in
      match Fallible.closeStatement (conn_id (_connection (cur w))) h (srv w) with
      | (Success _, s') =>
          (Returns tt,
           {| cur := closed_cursor (cur w); srv := s'; sent := sent w ++ [rq] |})
      | (Failure x, s') =>
          (Raises (Foreign x),
           {| cur := cur w; srv := s'; sent := sent w ++ [rq] |})
      end
  end.
Proof.
  intros H. destruct w as [[cn i sg dts f p cl a it u] s l].
  simpl in H. subst cl.
  unfold Fallible.close, Fallible.call_closeStatement, call, closed_cursor,
    bind, self, assign, ret.
  cbn [cur srv sent _closed _id _connection].
  destruct i as [h|]; [|reflexivity]. simpl.
  destruct (Fallible.closeStatement (conn_id cn) h s) as [[[]|x] s'];
    reflexivity.
Qed.


Lemma fallible_exit_guard w :
  Fallible.__exit__ w =
  if _closed (cur w) then (Returns tt, w) else Fallible.close w.
Proof.
  unfold Fallible.__exit__, bind, self, ret.
  destruct (_closed (cur w)); reflexivity.
Qed.

(** What [close] has done when it raises on an open cursor: the exception
    is the one [closeStatement] raised, and the cursor is as it was. *)
Lemma fallible_close_raises w e w' :
  _closed (cur w) = false ->
  Fallible.close w = (Raises e, w') ->
  exists h x,
    _id (cur w) = Some h
    /\ fst (Fallible.closeStatement (conn_id (_connection (cur w))) h (srv w))
       = Failure x
    /\ e = Foreign x
    /\ cur w' = cur w.
Proof.
  intros Hc H. rewrite (fallible_close_open w Hc) in H.
  destruct (_id (cur w)) as [h|]; [|discriminate H].
  cbv zeta in H.
  destruct (Fallible.closeStatement (conn_id (_connection (cur w))) h (srv w))
    as [[[]|x] s'] eqn:Hcs; [discriminate H|].
  injection H as <- <-. exists h, x. rewrite Hcs.
  split; [reflexivity|]. split; [reflexivity|]. split; reflexivity.
Qed.

Lemma fallible_close_returns w w' :
  _closed (cur w) = false ->
  Fallible.close w = (Returns tt, w') ->
  cur w' = closed_cursor (cur w).
Proof.
  intros Hc H. rewrite (fallible_close_open w Hc) in H.
  destruct (_id (cur w)) as [h|].
  - cbv zeta in H.
    destruct (Fallible.closeStatement (conn_id (_connection (cur w))) h (srv w))
      as [[[]|x] s']; [|discriminate H].
    injection H as <-. reflexivity.
  - injection H as <-. reflexivity.
Qed.


(** X1.  [__exit__] is [close] behind the closed flag.  On a closed cursor
    it does nothing, so leaving a [with] block after an explicit [close] is
    no error; on an open cursor it is [close].  When it returns, the cursor
    is closed and a second [__exit__] changes nothing.  It raises only when
    [closeStatement] raises: the exception of the client comes out, and the
    cursor is left as it was, open and holding its handle. *)
Theorem exit_is_guarded_close w :
  (if _closed (cur w) then Fallible.__exit__ w = (Returns tt, w)
   else Fallible.__exit__ w = Fallible.close w)
  /\ (forall w',
        Fallible.__exit__ w = (Returns tt, w') ->
        _closed (cur w') = true /\ Fallible.__exit__ w' = (Returns tt, w'))
  /\ (forall e w',
        Fallible.__exit__ w = (Raises e, w') ->
        exists h x,
          _closed (cur w) = false
          /\ _id (cur w) = Some h
          /\ fst (Fallible.closeStatement (conn_id (_connection (cur w))) h
                    (srv w)) = Failure x
          /\ e = Foreign x
          /\ cur w' = cur w).
Proof.
  rewrite fallible_exit_guard.
  destruct (_closed (cur w)) eqn:Hc.
  - split; [reflexivity|]. split.
    + intros w' H. injection H as <-. split; [exact Hc|].
      rewrite fallible_exit_guard, Hc. reflexivity.
    + intros e w' H. discriminate H.
  - split; [reflexivity|]. split.
    + intros w' H. pose proof (fallible_close_returns w w' Hc H) as Hcur.
      assert (Hc' : _closed (cur w') = true) by (rewrite Hcur; reflexivity).
      split; [exact Hc'|]. rewrite fallible_exit_guard, Hc'. reflexivity.
    + intros e w' H.
      destruct (fallible_close_raises w e w' Hc H) as (h & x & Hid & Hf & He & Hcur).
      exists h, x. auto.
Qed.

End Closing.

(** With a [closeStatement] that never raises, the three methods are those
    of the model of the client's contract. *)
Lemma quiet_closer_agrees {Obj PyExn ClientState : Type}
    (client : Client Obj PyExn ClientState) (w : World Obj ClientState) :
  Fallible.close (closer:=quiet_closer client) w = close w
  /\ Fallible.__del__ (closer:=quiet_closer client) w = __del__ w
  /\ Fallible.__exit__ (closer:=quiet_closer client) w = __exit__ w.
Proof.
  assert (Hclose : Fallible.close (closer:=quiet_closer client) w = close w).
  { destruct w as [[cn i sg dts f p cl a it u] s l].
    unfold Fallible.close, close, Fallible.call_closeStatement,
      call_closeStatement, call, bind, self, assign, ret.
    cbn [cur srv sent _closed _id _connection].
    destruct cl; [reflexivity|]. destruct i; reflexivity. }
  split; [exact Hclose|]. split.
  - unfold Fallible.__del__, __del__, bind, self.
    destruct (negb _ && negb _); [exact Hclose | reflexivity].
  - unfold Fallible.__exit__, __exit__, bind, self.
    destruct (negb _); [exact Hclose | reflexivity].
Qed.

(** * Concrete runs *)

Import Demo.

(** C1 at a first frame: with [itersize = 0] the server's first frame has no
    rows and is not done; [execute] raises the [NameError], the update count
    stays [-1] and no row is ready. *)
Example execute_zero_batch_raises :
  let r := execute "SELECT C FROM T" None zero_batch in
  fst r = Raises (NameError "InternalError")
  /\ _frame (cur (snd r)) = Some {| offset := 0; rows := []; done := false |}
  /\ _pos (cur (snd r)) = None
  /\ sent (snd r) = [ReqPrepareAndExecute "c0" None "SELECT C FROM T" 0].
Proof. vm_compute. repeat split; reflexivity. Qed.

(** An error of the client comes out of [execute] unchanged; the update
    count was reset before the request, the frame is the old one. *)
Example client_error_propagates :
  let r := execute (client:=failing_client) "SELECT 1" None stuck in
  fst r = Raises (Foreign "unreachable")
  /\ rowcount (cur (snd r)) = -1
  /\ _frame (cur (snd r)) = _frame (cur stuck)
  /\ sent (snd r) = [ReqPrepareAndExecute "c0" (Some 1) "SELECT 1" 2].
Proof. vm_compute. repeat split; reflexivity. Qed.

(** C2 as stated fails: with another handle held, [execute] with parameters
    sends three requests, not two; and the [prepare] it sends is bounded by
    [itersize] (here 2), as the [fetch] is. *)
Lemma execute_with_parameters_not_as_claimed :
  sent (snd (execute "SELECT ?" (Some one) held7)) =
    [ReqPrepare "c0" (Some 7) "SELECT ?" 2;
     ReqCloseStatement "c0" 7;
     ReqFetch "c0" (Some 8) (Some one) None 2]
  /\ ~ (exists rq1 rq2, sent (snd (execute "SELECT ?" (Some one) held7)) = [rq1; rq2])
  /\ sent (snd (execute "SELECT ?" (Some one) (fresh five))) =
       [ReqPrepare "c0" None "SELECT ?" (itersize (cur (fresh five)));
        ReqFetch "c0" (Some 8) (Some one) None (itersize (cur (fresh five)))]
  /\ itersize (cur (fresh five)) = 2.
Proof.
  split; [vm_compute; reflexivity|]. split.
  - intros (rq1 & rq2 & H). vm_compute in H. discriminate H.
  - split; vm_compute; reflexivity.
Qed.

Lemma execute_with_parameters_witness :
  _closed (cur held7) = false
  /\ exists o w',
       execute "SELECT ?" (Some one) held7 = (o, w')
       /\ _id (cur w') = Some 8
       /\ _frame (cur w') = Some (page five 0 2).
Proof.
  split; [reflexivity|]. eexists. eexists. split.
  - eapply (execute_with_parameters held7 "SELECT ?" one); reflexivity.
  - split; reflexivity.
Defined.



Lemma demo_frames_follow_requests : frames_follow_requests (client:=demo_client).
Proof.
  intros cn id o m s fr s' H. simpl in H. injection H as <- _. simpl. lia.
Qed.


(** C4 at the failing input: the cursor has read a [BigDecimal] column, so
    its table is [[(0, Decimal)]]; [executemany] then installs the signature
    of a statement with one [String] column, whose table would be empty,
    and the old table stays. *)
Lemma executemany_keeps_data_types_witness :
  let w' := snd (executemany "UPSERT ?" [one] requeried) in
  _signature (cur w') = Some {| columns := [column "java.lang.String"] |}
  /\ _data_types (cur w') = [(0%nat, Decimal)]
  /\ data_types_of (_signature (cur w')) = [].
Proof.
  pose proof (executemany_keeps_data_types requeried "UPSERT ?" [one]
                {| st_id := 8; st_signature := table_signature texts |} texts
                eq_refl eq_refl) as [Hsig Hdts].
  split; [exact Hsig|]. split; [exact Hdts|].
  cbv zeta. rewrite Hsig. reflexivity.
Defined.

(** C5 as stated fails: the same data-modifying statement leaves the
    server's count, 3, in the update count when run without parameters, and
    [-1] when run with parameters. *)
Lemma parameterized_execute_has_no_update_count :
  rowcount (cur (snd (execute "UPSERT" None (fresh upserts)))) = 3
  /\ rowcount (cur (snd (execute "UPSERT ?" (Some one) (fresh upserts)))) = -1
  /\ ~ (0 <= rowcount (cur (snd (execute "UPSERT ?" (Some one) (fresh upserts))))).
Proof.
  split; [vm_compute; reflexivity|]. split; [vm_compute; reflexivity|].
  intros H. vm_compute in H. apply H. reflexivity.
Qed.

Lemma execute_rowcount_witness :
  _closed (cur (fresh upserts)) = false
  /\ rowcount (cur (snd (execute "UPSERT" None (fresh upserts)))) = 3.
Proof.
  split; [reflexivity|].
  rewrite (execute_rowcount (fresh upserts) "UPSERT" None eq_refl).
  reflexivity.
Defined.



(** C7 (the defect).  The fetch methods have no check of the closed flag
    of their own, as [close], [execute] and [executemany] have: they fail
    on a closed cursor only through the missing frame, which the loop of
    [fetchmany] does not reach when the size is not positive.  So on a
    closed cursor [fetchmany(0)] returns the empty list, where the
    docstring of [close] allows no further operation. *)
Lemma fetchmany_zero_on_closed_cursor :
  let w := snd (close queried) in
  closed (cur w) = true
  /\ fetchmany (Some 0) w = (Returns [], w)
  /\ ~ (exists e w', fetchmany (Some 0) w = (Raises e, w')).
Proof.
  cbv zeta. split; [reflexivity|]. split; [reflexivity|].
  intros (e & w' & H). vm_compute in H. discriminate H.
Qed.

Lemma pagination_order_witness :
  sent (snd (fetchmany (Some 5) queried))
  = sent queried ++ [ReqFetch "c0" (Some 8) None (Some 2) 2;
                     ReqFetch "c0" (Some 8) None (Some 4) 2]
  /\ Forall (page_request (cur queried))
       [ReqFetch "c0" (Some 8) None (Some 2) 2;
        ReqFetch "c0" (Some 8) None (Some 4) 2]
  /\ StronglySorted Z.lt [2; 4]
  /\ Forall (fun o => 0 < o) [2; 4].
Proof.
  destruct (proj2 pagination_order demo_frames_follow_requests queried
              (snd (fetchmany (Some 5) queried))
              (rtc_once _ _ (step_fetchmany (Some 5) queried)))
    as (new & Hsent & Hreq & Hsorted & Hfirst).
  assert (Hnew : new = [ReqFetch "c0" (Some 8) None (Some 2) 2;
                        ReqFetch "c0" (Some 8) None (Some 4) 2]).
  { apply (app_inv_head (sent queried)). rewrite <- Hsent.
    vm_compute. reflexivity. }
  subst new. split; [vm_compute; reflexivity|]. split; [exact Hreq|].
  split; [exact Hsorted|]. exact (Hfirst (page five 0 2) eq_refl).
Defined.

(** C8 as stated fails: a client that answers every page request with the
    same frame at offset 0, one row and not done, is asked for the page at
    offset 1 again at every [fetchone]; the offsets requested do not
    increase, and a page consumed is requested again. *)
Lemma stuck_client_repeats_a_page :
  rtc (fetch_step (client:=stuck_client)) stuck
    (snd (fetchone (client:=stuck_client)
            (snd (fetchone (client:=stuck_client) stuck))))
  /\ sent (snd (fetchone (client:=stuck_client)
                  (snd (fetchone (client:=stuck_client) stuck))))
     = sent stuck ++ [ReqFetch "c0" (Some 1) None (Some 1) 2;
                      ReqFetch "c0" (Some 1) None (Some 1) 2]
  /\ ~ StronglySorted Z.lt
         (page_offsets
            [ReqFetch (Obj:=DObj) "c0" (Some 1) None (Some 1) 2;
             ReqFetch "c0" (Some 1) None (Some 1) 2]).
Proof.
  split.
  - eapply rtc_l; [apply step_fetchone|]. apply rtc_once. apply step_fetchone.
  - split; [vm_compute; reflexivity|].
    intros H. simpl in H. inversion H as [|? ? _ Hall]; subst.
    inversion Hall as [|? ? Hlt _]; subst. lia.
Qed.

Lemma fetchmany_partition_witness :
  0 < 2
  /\ fetchall 10 queried
     = Some (Returns [[Some (AsDecimal "1")]; [Some (AsDecimal "2")]; [None];
                      [Some (AsDecimal "4")]; [Some (AsDecimal "5")]],
             snd (fetchmany (Some 6) queried))
  /\ exists fuel,
       fetchmany_until_short fuel 2 [] queried
       = Some (Returns [[Some (AsDecimal "1")]; [Some (AsDecimal "2")]; [None];
                        [Some (AsDecimal "4")]; [Some (AsDecimal "5")]],
               snd (fetchmany (Some 6) queried)).
Proof.
  split; [lia|]. split; [vm_compute; reflexivity|].
  apply (proj1 (fetchmany_partition 2 queried _ ltac:(lia))).
  exists 10%nat. vm_compute. reflexivity.
Defined.

Lemma execute_empty_result_list_witness :
  _closed (cur quiet) = false
  /\ fst (execute "SELECT C FROM T" None quiet) = Returns tt
  /\ _frame (cur (snd (execute "SELECT C FROM T" None quiet))) = _frame (cur queried)
  /\ fst (fetchone (snd (execute "SELECT C FROM T" None quiet)))
     = Returns (Some [Some (AsDecimal "1")]).
Proof.
  split; [reflexivity|].
  destruct (execute_empty_result_list (client:=demo_client) quiet
              "SELECT C FROM T" (srv quiet) eq_refl eq_refl)
    as (Hexec & _ & _ & Hnext).
  rewrite Hexec. cbn [fst snd]. split; [reflexivity|]. split; [reflexivity|].
  rewrite (Hnext (page five 0 2) 0%nat [Some (Wire "1")]
             eq_refl eq_refl eq_refl).
  reflexivity.
Defined.

(** ** Runs for the rest of the cursor *)

Lemma del_leaves_closed_connection_alone_witness :
  _closed (cur (snd (close queried))) = true
  /\ __del__ (snd (close queried)) = (Returns tt, snd (close queried))
  /\ sent (snd (__del__ (snd (close queried)))) = sent (snd (close queried))
  /\ _id (cur (snd (__del__ (snd (close queried))))) = None.
Proof.
  split; [reflexivity|].
  exact (del_leaves_closed_connection_alone (snd (close queried))
           (or_intror eq_refl)).
Defined.

Lemma execute_without_parameters_witness :
  _closed (cur held7) = false
  /\ exists o w',
       execute "SELECT C FROM T" None held7 = (o, w')
       /\ o = Returns tt
       /\ _id (cur w') = Some 8
       /\ _data_types (cur w') = [(0%nat, Decimal)]
       /\ rownumber (cur w') = Some 0
       /\ sent w' = [ReqPrepareAndExecute "c0" (Some 7) "SELECT C FROM T" 2;
                     ReqCloseStatement "c0" 7].
Proof.
  split; [reflexivity|]. eexists. eexists. split.
  - eapply (execute_without_parameters held7 "SELECT C FROM T"
              {| ownStatement := true; statementId := 8;
                 signature := table_signature five;
                 firstFrame := Some (page five 0 2);
                 updateCount := -1 |} [] five); reflexivity.
  - repeat split; reflexivity.
Defined.

Lemma execute_first_request_fails_witness :
  _closed (cur stuck) = false
  /\ exists rq,
       rq = ReqPrepare "c0" (Some 1) "SELECT ?" 2
       /\ execute (client:=failing_client) "SELECT ?" (Some one) stuck =
          (Raises (Foreign "unreachable"),
           {| cur := with_updatecount (-1) (cur stuck); srv := tt;
              sent := sent stuck ++ [rq] |}).
Proof.
  split; [reflexivity|].
  exact (execute_first_request_fails (client:=failing_client) stuck "SELECT ?"
           (Some one) "unreachable" tt eq_refl eq_refl).
Defined.

Lemma execute_fetch_fails_after_prepare_witness :
  _closed (cur stuck) = false
  /\ exists w',
       execute (client:=flaky_client) "SELECT ?" (Some one) stuck
       = (Raises (Foreign "timeout"), w')
       /\ _id (cur w') = Some 2
       /\ _frame (cur w') = Some stuck_frame
       /\ _pos (cur w') = Some 0%nat
       /\ sent w' = [ReqPrepare "c0" (Some 1) "SELECT ?" 2;
                     ReqCloseStatement "c0" 1;
                     ReqFetch "c0" (Some 2) (Some one) None 2].
Proof.
  split; [reflexivity|]. eexists. split.
  - eapply (execute_fetch_fails_after_prepare (client:=flaky_client) stuck
              "SELECT ?" one {| st_id := 2; st_signature := None |} tt
              "timeout" tt); reflexivity.
  - repeat split; reflexivity.
Defined.

Lemma executemany_empty_sequence_witness :
  _closed (cur held7) = false
  /\ exists w',
       executemany "UPSERT ?" [] held7 = (Returns tt, w')
       /\ _id (cur w') = Some 8
       /\ _signature (cur w') = table_signature five
       /\ sent w' = [ReqPrepare "c0" (Some 7) "UPSERT ?" 0;
                     ReqCloseStatement "c0" 7].
Proof.
  split; [reflexivity|]. eexists. split.
  - eapply (executemany_empty_sequence held7 "UPSERT ?"
              {| st_id := 8; st_signature := table_signature five |} five);
      reflexivity.
  - repeat split; reflexivity.
Defined.

Lemma executemany_stops_at_first_failure_witness :
  _closed (cur weary) = false
  /\ fst (executemany (client:=tiring_client) "UPSERT ?" [one; []; one] weary)
     = Raises (Foreign "timeout")
  /\ exists pre ps post x,
       [one; []; one] = pre ++ ps :: post
       /\ fst (executemany (client:=tiring_client) "UPSERT ?" pre weary)
          = Returns tt
       /\ fetch (Client:=tiring_client) "c0" (Some 2) (Some ps) None 0
            (srv (snd (executemany (client:=tiring_client) "UPSERT ?" pre weary)))
          = (Failure x,
             srv (snd (executemany (client:=tiring_client) "UPSERT ?"
                         [one; []; one] weary)))
       /\ Foreign "timeout" = Foreign x
       /\ sent (snd (executemany (client:=tiring_client) "UPSERT ?"
                       [one; []; one] weary))
          = ([] ++ [ReqPrepare "c0" (Some 1) "UPSERT ?" 0]
                ++ [ReqCloseStatement "c0" 1])
            ++ batch_requests "c0" (Some 2) (pre ++ [ps]).
Proof.
  split; [reflexivity|]. split; [reflexivity|].
  exact (executemany_stops_at_first_failure (client:=tiring_client) weary
           "UPSERT ?" [one; []; one] {| st_id := 2; st_signature := None |}
           0%nat eq_refl eq_refl).
Defined.

Lemma end_of_results_is_stable_witness :
  fetchone drained = (Returns None, drained)
  /\ (forall fuel, fetchall (S fuel) drained = Some (Returns [], drained))
  /\ (forall size, fetchmany size drained = (Returns [], drained))
  /\ exists e, next drained = (Raises e, drained) /\ is_StopIteration e = true.
Proof.
  split; [vm_compute; reflexivity|].
  apply (end_of_results_is_stable drained drained). vm_compute. reflexivity.
Defined.

Lemma fetchall_leaves_cursor_at_end_witness :
  fetchall 10 queried = Some (Returns five_read, drained)
  /\ fetchone drained = (Returns None, drained)
  /\ forall fuel', fetchall (S fuel') drained = Some (Returns [], drained).
Proof.
  split; [vm_compute; reflexivity|].
  apply (fetchall_leaves_cursor_at_end 10 queried five_read drained).
  vm_compute. reflexivity.
Defined.

Lemma fetchmany_short_means_end_witness :
  fetchmany (Some 6) queried = (Returns five_read, drained)
  /\ Z.of_nat (length five_read) < 6
  /\ fetchone drained = (Returns None, drained).
Proof.
  split; [vm_compute; reflexivity|]. split; [reflexivity|].
  apply (fetchmany_short_means_end (Some 6) queried five_read drained);
    vm_compute; reflexivity.
Defined.

Lemma fetch_changes_only_the_buffer_witness :
  only_buffer_changes queried (snd (fetchmany (Some 5) queried)).
Proof.
  apply fetch_changes_only_the_buffer. apply rtc_once. apply step_fetchmany.
Defined.

Lemma rownumber_advances_witness :
  rownumber (cur queried) = Some 0
  /\ rownumber (cur (snd (fetchone queried))) = Some 1.
Proof.
  exact (rownumber_advances queried (page five 0 2) 0%nat [Some (Wire "1")]
           eq_refl eq_refl eq_refl).
Defined.

Lemma coercion_failure_skips_row_witness :
  _data_types (cur ragged_boundary) = [(1%nat, Decimal)]
  /\ _pos (cur ragged_boundary) = Some 1%nat
  /\ done (page ragged 0 2) = false
  /\ fst (fetchone ragged_boundary) = Raises IndexError
  /\ _frame (cur (snd (fetchone ragged_boundary))) = Some (page ragged 2 2)
  /\ _pos (cur (snd (fetchone ragged_boundary))) = Some 0%nat.
Proof.
  split; [reflexivity|]. split; [reflexivity|]. split; [reflexivity|].
  exact (proj2 (coercion_failure_skips_row ragged_boundary (page ragged 0 2)
                  1%nat [Some (Wire "b")] IndexError [Some (Wire "b")]
                  eq_refl eq_refl eq_refl eq_refl)).
Defined.

Lemma failed_page_fetch_ends_results_witness :
  done stuck_frame = false
  /\ exists w',
       fetchone (client:=failing_client) stuck = (Raises (Foreign "unreachable"), w')
       /\ sent w' = [ReqFetch "c0" (Some 1) None (Some 1) 2]
       /\ fetchone (client:=failing_client) w' = (Returns None, w').
Proof.
  split; [reflexivity|].
  destruct (failed_page_fetch_ends_results (client:=failing_client) stuck
              stuck_frame 0%nat [Some (Wire "x")] "unreachable" tt
              eq_refl eq_refl eq_refl ltac:(simpl; lia) eq_refl eq_refl)
    as [Hraise Hend].
  eexists. split; [exact Hraise|]. split; [reflexivity | exact Hend].
Defined.

Lemma coerce_needs_every_column_witness :
  coerce [(0%nat, Decimal)] [Some (Wire "1")]
  = (Returns tt, [Some (AsDecimal "1")])
  /\ length [Some (AsDecimal "1")] = length [Some (Wire "1")]
  /\ Forall (fun entry : nat * data_type => (fst entry < 1)%nat)
       [(0%nat, Decimal)].
Proof.
  split; [reflexivity|].
  exact (coerce_needs_every_column [(0%nat, Decimal)] [Some (Wire "1")]
           [Some (AsDecimal "1")] eq_refl).
Defined.

Lemma coercion_by_column_class_witness :
  data_types_of (Some ragged_signature) = [(1%nat, Decimal)]
  /\ forall j,
       [Some (Wire "a"); Some (AsDecimal "7"); None] !! j =
       match columns ragged_signature !! j,
             [Some (Wire "a"); Some (Wire "7"); None] !! j with
       | Some column, Some (Some v) =>
           match data_type_of_class (columnClassName column) with
           | Some dt =>
               match apply_data_type dt v with
               | Success v' => Some (Some v')
               | Failure _ => Some (Some v)
               end
           | None => Some (Some v)
           end
       | _, value => value
       end.
Proof.
  split; [reflexivity|].
  exact (coercion_by_column_class ragged_signature
           [Some (Wire "a"); Some (Wire "7"); None]
           [Some (Wire "a"); Some (AsDecimal "7"); None] eq_refl).
Defined.

Lemma queried_reachable :
  rtc (method_step (client:=demo_client))
    {| cur := __init__ conn None; srv := five; sent := [] |} queried.
Proof.
  eapply rtc_l; [exact (use_itersize 2 _)|].
  eapply rtc_l; [exact (use_execute "SELECT C FROM T" None _)|].
  apply rtc_refl.
Qed.

Lemma handle_is_released_exactly_when_dropped_witness :
  handle_discipline held7 (snd (execute "SELECT ?" (Some one) held7)).
Proof.
  apply handle_is_released_exactly_when_dropped. apply use_execute.
Defined.

Lemma reachable_cursor_is_consistent_witness :
  (forall p, _pos (cur queried) = Some p ->
     exists fr row, _frame (cur queried) = Some fr /\ rows fr !! p = Some row)
  /\ (_closed (cur queried) = true ->
      _id (cur queried) = None /\ _signature (cur queried) = None
      /\ _data_types (cur queried) = [] /\ _frame (cur queried) = None
      /\ _pos (cur queried) = None).
Proof.
  exact (reachable_cursor_is_consistent conn None five queried queried_reachable).
Defined.

Lemma closed_cursor_is_silent_witness :
  _closed (cur (snd (close queried))) = true
  /\ sent (snd (execute "SELECT 1" None (snd (close queried))))
     = sent (snd (close queried))
  /\ srv (snd (execute "SELECT 1" None (snd (close queried))))
     = srv (snd (close queried))
  /\ _closed (cur (snd (execute "SELECT 1" None (snd (close queried))))) = true.
Proof.
  split; [reflexivity|].
  apply (closed_cursor_is_silent conn None five (snd (close queried))).
  - eapply rtc_r; [exact queried_reachable | apply use_close].
  - reflexivity.
  - apply use_execute.
Defined.

Lemma demo_serves s0 :
  serves (client:=demo_client) (table_rows s0) (fun s => s = s0).
Proof.
  intros cn id o m s ->. exists s0. split; [|reflexivity].
  cbn [fetch demo_client default]. unfold page, page_of, Datatypes.id.
  rewrite !Nat2Z.id. do 2 f_equal.
  destruct (Nat.leb_spec (length (table_rows s0)) (o + m)),
           (Z.leb_spec (Z.of_nat (length (table_rows s0)))
              (Z.of_nat o + Z.of_nat m)); try reflexivity; lia.
Qed.

Lemma fetchall_returns_the_whole_table_witness :
  itersize (cur queried) = Z.of_nat 2
  /\ _frame (cur queried) = Some (page_of (table_rows five) 0 2)
  /\ exists w',
       fetchall 6 queried = Some (Returns five_read, w')
       /\ _pos (cur w') = None.
Proof.
  split; [reflexivity|]. split; [reflexivity|].
  apply (fetchall_returns_the_whole_table (table_rows five) (fun s => s = five)
           2 queried (demo_serves five) eq_refl ltac:(lia) eq_refl).
  - repeat constructor.
  - reflexivity.
  - reflexivity.
Defined.
